(** * hpo_term: mapping HPO terms to system-level categories

    A shallow embedding of [hpo_term.py] and the properties of its core:
    name index, system-root extraction, term resolution, ancestor
    classification and the per-row pipeline.

    Conventions of the embedding.
    - A Python [str] is a [string]; every character is a code point below
      256, so [str.lower], [str.strip] and the regular expression classes
      are written out for that range.
    - A [dict] that is only read by key is a [gmap]; a [dict] that is
      iterated is an association list in insertion order; a [set] is a
      [gset].
    - [raise] is the [Raise] constructor of [result]. *)

From Stdlib Require Import String Ascii List Sorted Permutation.
From stdpp Require Import base option list gmap sets strings.

Open Scope string_scope.
Open Scope nat_scope.
Open Scope list_scope.

#[local] Set Warnings "-clear-no-such-hyp".

(** ** Exceptions *)

Inductive exn : Type :=
| ValueError (msg : string)
| KeyError (key : string).

Inductive result (A : Type) : Type :=
| Ok (a : A)
| Raise (e : exn).
Arguments Ok {A} a.
Arguments Raise {A} e.

#[global] Instance result_ret : MRet result := @Ok.
#[global] Instance result_bind : MBind result := λ A B k r,
  match r with
  | Ok a => k a
  | Raise e => Raise e
  end.

(** A [for] loop whose body may raise and that appends one value per
    iteration. *)
Fixpoint for_each {A B} (body : A → result B) (l : list A) : result (list B) :=
  match l with
  | [] => Ok []
  | a :: l' =>
      b ← body a;
      bs ← for_each body l';
      Ok (b :: bs)
  end.

(** A [for] loop whose body may raise and that updates one variable. *)
Fixpoint for_fold {A S} (body : S → A → result S) (l : list A) (s : S) : result S :=
  match l with
  | [] => Ok s
  | a :: l' =>
      s' ← body s a;
      for_fold body l' s'
  end.

(** ** Python strings *)

Module Py.

Definition code (c : ascii) : nat := nat_of_ascii c.

(** [str.isspace] on one character. *)
Definition is_space (c : ascii) : bool :=
  let n := code c in
  ((9 <=? n) && (n <=? 13)) || ((28 <=? n) && (n <=? 32))
  || (n =? 133) || (n =? 160).

(** Decimal digits, the class [\d]. *)
Definition is_digit (c : ascii) : bool :=
  let n := code c in (48 <=? n) && (n <=? 57).

Definition is_upper (c : ascii) : bool :=
  let n := code c in
  ((65 <=? n) && (n <=? 90))
  || ((192 <=? n) && (n <=? 222) && negb (n =? 215)).

Definition lower_char (c : ascii) : ascii :=
  if is_upper c then ascii_of_nat (code c + 32) else c.

(** [s.lower()] *)
Fixpoint lower (s : string) : string :=
  match s with
  | EmptyString => EmptyString
  | String c s' => String (lower_char c) (lower s')
  end.

Fixpoint lstrip (s : string) : string :=
  match s with
  | EmptyString => EmptyString
  | String c s' => if is_space c then lstrip s' else s
  end.

Fixpoint rstrip (s : string) : string :=
  match s with
  | EmptyString => EmptyString
  | String c s' =>
      match rstrip s' with
      | EmptyString => if is_space c then EmptyString else String c EmptyString
      | r => String c r
      end
  end.

(** [s.strip()] *)
Definition strip (s : string) : string := rstrip (lstrip s).

(** Truth value of a string: non-empty. *)
Definition truthy (s : string) : bool :=
  match s with EmptyString => false | _ => true end.

(** [s.split(sep)] for a one-character separator. *)
Fixpoint split (sep : ascii) (s : string) : list string :=
  match s with
  | EmptyString => [EmptyString]
  | String c s' =>
      if Ascii.eqb c sep then EmptyString :: split sep s'
      else match split sep s' with
           | [] => [String c EmptyString]
           | w :: ws => String c w :: ws
           end
  end.

Fixpoint zeros (n : nat) : string :=
  match n with
  | O => EmptyString
  | S n' => String "0" (zeros n')
  end.

(** [s.zfill(width)]: left padding with zeros, after a leading sign. *)
Definition zfill (width : nat) (s : string) : string :=
  let pad := zeros (width - String.length s) in
  match s with
  | String c s' =>
      if Ascii.eqb c "+" || Ascii.eqb c "-" then String c (pad +:+ s')
      else pad +:+ s
  | EmptyString => pad
  end.

(** [sep.join(l)] *)
Fixpoint join (sep : string) (l : list string) : string :=
  match l with
  | [] => EmptyString
  | [x] => x
  | x :: l' => x +:+ sep +:+ join sep l'
  end.

(** [x or d] for an optional string. *)
Definition or_else (x : option string) (d : string) : string :=
  match x with
  | Some s => if truthy s then s else d
  | None => d
  end.

End Py.

(** ** The regular expression [^HP:\d{7}$] under [re.IGNORECASE] *)

Module Re.

(** A literal letter matches whatever has the same lower case. *)
Definition lit_ci (l c : ascii) : bool :=
  Ascii.eqb (Py.lower_char c) (Py.lower_char l).

Fixpoint digits (n : nat) (s : string) : option string :=
  match n with
  | O => Some s
  | S n' =>
      match s with
      | String c s' => if Py.is_digit c then digits n' s' else None
      | EmptyString => None
      end
  end.

(** [$] without [re.MULTILINE]: the end, or just before a final newline. *)
Definition at_end (s : string) : bool :=
  match s with
  | EmptyString => true
  | String c EmptyString => Ascii.eqb c "010"
  | _ => false
  end.

(** [re.match(r"^HP:\d{7}$", t, re.IGNORECASE)] as a truth value. *)
Definition match_hp_id (t : string) : bool :=
  match t with
  | String h (String p (String colon rest)) =>
      lit_ci "H" h && lit_ci "P" p && Ascii.eqb colon ":"
      && match digits 7 rest with
         | Some tl => at_end tl
         | None => false
         end
  | _ => false
  end.

End Re.


(** ** Dictionaries that are iterated *)

Module Dict.

(** [d[k] = v]: an existing key keeps its place, a new key goes last. *)
Fixpoint set {V} (d : list (string * V)) (k : string) (v : V) : list (string * V) :=
  match d with
  | [] => [(k, v)]
  | (k', v') :: d' =>
      if decide (k = k') then (k', v) :: d' else (k', v') :: set d' k v
  end.

(** [d.get(k)] *)
Fixpoint get {V} (d : list (string * V)) (k : string) : option V :=
  match d with
  | [] => None
  | (k', v') :: d' => if decide (k = k') then Some v' else get d' k
  end.

End Dict.

(** ** The ontology graph *)

(** The [networkx.MultiDiGraph] that obonet builds: the nodes in insertion
    order, each with its ["name"] attribute if it has one (the only
    attribute the program reads), and the edges [(u, v, key)], each from a
    child term [u] to a parent term [v]. *)
Record MultiDiGraph : Type := {
  nodes : list (string * option string);
  edges : list (string * string * string);
}.

Module Nx.

(** [n in G] *)
Definition has_node (G : MultiDiGraph) (n : string) : bool :=
  bool_decide (n ∈ (nodes G).*1).

(** [G.nodes[n]]: the attributes of [n]. *)
Definition node (G : MultiDiGraph) (n : string) : result (option string) :=
  match Dict.get (nodes G) n with
  | Some attrs => Ok attrs
  | None => Raise (KeyError n)
  end.

(** [G.in_edges(n, keys=True)] *)
Definition in_edges (G : MultiDiGraph) (n : string) : list (string * string * string) :=
  filter (λ e, e.1.2 = n) (edges G).

Definition edge (G : MultiDiGraph) (u v : string) : Prop :=
  ∃ k, (u, v, k) ∈ edges G.

(** One breadth-first level against the direction of the edges: the
    sources of the edges that end in [seen]. *)
Definition back (G : MultiDiGraph) (seen : gset string) : gset string :=
  list_to_set ((λ e, e.1.1) <$> filter (λ e, e.1.2 ∈ seen) (edges G)).

Fixpoint reach_back (G : MultiDiGraph) (rounds : nat) (seen : gset string) : gset string :=
  match rounds with
  | O => seen
  | S r => reach_back G r (seen ∪ back G seen)
  end.

(** [networkx.ancestors(G, source)]: all nodes having a path to [source]
    in [G], [source] itself left out. NetworkX collects them by a
    breadth-first search over the reversed edges; a node with a path has
    one of at most [length (edges G)] edges. *)
Definition ancestors (G : MultiDiGraph) (source : string) : gset string :=
  reach_back G (length (edges G)) {[source]} ∖ {[source]}.

(** What NetworkX maintains: node keys are unique and both ends of every
    edge are nodes. *)
Definition wf (G : MultiDiGraph) : Prop :=
  NoDup (nodes G).*1
  ∧ Forall (λ e, e.1.1 ∈ (nodes G).*1 ∧ e.1.2 ∈ (nodes G).*1) (edges G).

#[global] Instance wf_dec G : Decision (wf G).
Proof. unfold wf. apply _. Defined.

End Nx.

(** ** The program *)

Definition PHENOTYPIC_ABN : string := "HP:0000118".

(** The body of the loop of [build_name_index]: a node with a name that is
    not empty is filed under the lower-cased name. *)
Definition name_index_step (name_to_id : gmap string string)
    (nd : string * option string) : gmap string string :=
  match nd.2 with
  | Some name =>
      if Py.truthy name then <[Py.lower name := nd.1]> name_to_id
      else name_to_id
  | None => name_to_id
  end.

(** [build_name_index]: lower-cased primary name to identifier. *)
Definition build_name_index (G : MultiDiGraph) : gmap string string :=
  foldl name_index_step ∅ (nodes G).

(** Truth value of the optional allow-list: given and not empty. *)
Definition restrict_truthy (restrict_to : option (gset string)) : bool :=
  match restrict_to with
  | Some s => bool_decide (s ≠ ∅)
  | None => false
  end.

Definition in_restrict (restrict_to : option (gset string)) (cid : string) : bool :=
  match restrict_to with
  | Some s => bool_decide (cid ∈ s)
  | None => false
  end.

(** The set [children] of [get_system_roots]: the sources of the edges
    that end in the root. *)
Definition children (G : MultiDiGraph) : gset string :=
  list_to_set ((λ e, e.1.1) <$> Nx.in_edges G PHENOTYPIC_ABN).

(** The body of the second loop of [get_system_roots]. *)
Definition system_roots_step (G : MultiDiGraph) (restrict_to : option (gset string))
    (systems : list (string * string)) (cid : string)
  : result (list (string * string)) :=
  if restrict_truthy restrict_to && negb (in_restrict restrict_to cid)
  then Ok systems
  else
    attrs ← Nx.node G cid;
    Ok (Dict.set systems cid (default "" attrs)).

(** [get_system_roots]. The loop over [G.out_edges] in the source only
    passes. The iteration order of the set [children] is the one of
    [elements]; Python leaves it open as well. *)
Definition get_system_roots (G : MultiDiGraph) (restrict_to : option (gset string))
  : result (list (string * string)) :=
  if negb (Nx.has_node G PHENOTYPIC_ABN) then
    Raise (ValueError "HP:0000118 not found in the ontology graph.")
  else
    for_fold (system_roots_step G restrict_to) (elements (children G)) [].

(** [resolve_input_to_id]. The index [1] of the split exists whenever the
    pattern has matched, see [split_after_match]. *)
Definition resolve_input_to_id (term : string) (name_to_id : gmap string string)
  : option string :=
  let t := Py.strip term in
  if negb (Py.truthy t) then None
  else if Re.match_hp_id t then
    Some ("HP:" +:+ Py.zfill 7 (default "" (Py.split ":" t !! 1)))
  else name_to_id !! Py.lower t.

(** [ancestors] *)
Definition ancestors (G : MultiDiGraph) (node : string) : gset string :=
  if negb (Nx.has_node G node) then ∅ else Nx.ancestors G node.

(** [hits.sort(key=...)]: a stable sort on the key, by insertion. *)
Fixpoint insert_by {A} (key : A → string) (x : A) (l : list A) : list A :=
  match l with
  | [] => [x]
  | y :: l' =>
      if String.leb (key x) (key y) then x :: y :: l' else y :: insert_by key x l'
  end.

Definition sort_by {A} (key : A → string) (l : list A) : list A :=
  foldr (insert_by key) [] l.

(** [map_term_to_systems]. Going through [systems.keys()] and reading
    [systems[sid]] is going through the entries of the dictionary. *)
Definition map_term_to_systems (G : MultiDiGraph) (systems : list (string * string))
    (node_id : string) : list (string * string) :=
  if negb (Nx.has_node G node_id) then []
  else
    let ancs := ancestors G node_id in
    let hits := filter (λ x, x.1 ∈ ancs ∨ x.1 = node_id) systems in
    sort_by (λ x, Py.lower x.2) hits.

(** The [--restrict_ids] option of [main] as the allow-list. *)
Definition parse_restrict (restrict_ids : option string) : option (gset string) :=
  match restrict_ids with
  | Some s =>
      if Py.truthy s then
        Some (list_to_set (filter (λ x, Py.truthy x = true) (Py.strip <$> Py.split "," s)))
      else None
  | None => None
  end.

(** The body of the loop of [main]: one input, one record. *)
Definition main_row (G : MultiDiGraph) (name_to_id : gmap string string)
    (system_roots : list (string * string)) (raw : string)
  : result (list (string * string)) :=
  let resolved_id := resolve_input_to_id raw name_to_id in
  let resolved := match resolved_id with Some rid => Py.truthy rid | None => false end in
  let rid := default "" resolved_id in
  resolved_name ←
    (if resolved && Nx.has_node G rid then
       attrs ← Nx.node G rid;
       match attrs with
       | Some name => Ok (Some name)
       | None => Raise (KeyError "name")
       end
     else Ok None);
  let systems := if resolved then map_term_to_systems G system_roots rid else [] in
  let sys_ids := match systems with [] => "" | _ => Py.join "|" systems.*1 end in
  let sys_names := match systems with [] => "" | _ => Py.join "|" systems.*2 end in
  Ok [ ("input", raw);
       ("resolved_hpo_id", Py.or_else resolved_id "");
       ("resolved_hpo_name", Py.or_else resolved_name "");
       ("system_level_ids", sys_ids);
       ("system_level_names", sys_names) ].

(** [main] from the loaded graph up to the list [results]. *)
Definition main_results (G : MultiDiGraph) (restrict_ids : option string)
    (inputs : list string) : result (list (list (string * string))) :=
  let name_to_id := build_name_index G in
  let restrict := parse_restrict restrict_ids in
  system_roots ← get_system_roots G restrict;
  for_each (main_row G name_to_id system_roots) inputs.

Definition fieldnames : list string :=
  ["input"; "resolved_hpo_id"; "resolved_hpo_name";
   "system_level_ids"; "system_level_names"].

(** [csv.DictWriter.writerow]: the cells in the order of [fieldnames]; a
    key outside [fieldnames] is an error, a missing one is left empty. The
    [ValueError] has the fixed head of the message of the library, which
    goes on with a colon and the keys in question; the records that [main]
    builds have the keys of [fieldnames] and never get there. *)
Definition writerow (r : list (string * string)) : result (list string) :=
  if forallb (λ k, bool_decide (k ∈ fieldnames)) r.*1 then
    Ok ((λ f, default "" (Dict.get r f)) <$> fieldnames)
  else Raise (ValueError "dict contains fields not in fieldnames").

(** [write_output]: the header, then one line per record. *)
Definition write_output (rows : list (list (string * string)))
  : result (list (list string)) :=
  body ← for_each writerow rows;
  Ok (fieldnames :: body).

(** [main]: the cells of the written table. *)
Definition main (G : MultiDiGraph) (restrict_ids : option string)
    (inputs : list string) : result (list (list string)) :=
  results ← main_results G restrict_ids inputs;
  write_output results.

(** [read_inputs(path, None)]: the plain-text branch, from the lines that
    iterating over the open file gives. *)
Definition read_inputs_plain (lines : list string) : list string :=
  Py.strip <$> filter (λ line, Py.truthy (Py.strip line) = true) lines.

(** ** Definitions for the statements *)

(** A string that does not start with white space. *)
Definition no_lead (s : string) : Prop :=
  match s with
  | String c _ => Py.is_space c = false
  | EmptyString => True
  end.

(** All characters of a string pass a test. *)
Fixpoint all_chars (P : ascii → bool) (s : string) : bool :=
  match s with
  | EmptyString => true
  | String c s' => P c && all_chars P s'
  end.

(** The order of a sort on [key]. *)
Definition key_le {A} (key : A → string) (a b : A) : Prop :=
  String.le (key a) (key b).

(** The sources of the edges of a graph. *)
Definition sources (G : MultiDiGraph) : gset string :=
  list_to_set ((λ e, e.1.1) <$> edges G).

(** The test that lets a child through in [get_system_roots]: no
    allow-list, an empty one, or one that has the child. *)
Definition kept (restrict_to : option (gset string)) (cid : string) : Prop :=
  match restrict_to with
  | Some s => s = ∅ ∨ cid ∈ s
  | None => True
  end.

#[global] Instance kept_dec restrict_to cid : Decision (kept restrict_to cid).
Proof. unfold kept. destruct restrict_to; apply _. Defined.

(** The name that [get_system_roots] records for a child. *)
Definition recorded (G : MultiDiGraph) (x : string * string) : Prop :=
  ∃ attrs, Nx.node G x.1 = Ok attrs ∧ x.2 = default "" attrs.

(** The record that [main] builds from its four local values. *)
Definition record (raw : string) (resolved_id resolved_name : option string)
    (systems : list (string * string)) : list (string * string) :=
  [ ("input", raw);
    ("resolved_hpo_id", Py.or_else resolved_id "");
    ("resolved_hpo_name", Py.or_else resolved_name "");
    ("system_level_ids", Py.join "|" systems.*1);
    ("system_level_names", Py.join "|" systems.*2) ].

(** Ascending by lower-cased name, then by identifier. *)
Definition name_then_id (a b : string * string) : Prop :=
  String.ltb (Py.lower a.2) (Py.lower b.2) = true
  ∨ (Py.lower a.2 = Py.lower b.2 ∧ String.le a.1 b.1).

(** The field names without the [hpo] infix. *)
Definition short_fieldnames : list string :=
  ["input"; "resolved_id"; "resolved_name";
   "system_level_ids"; "system_level_names"].

(** ** Small ontologies *)

(** HP:0001250 (Seizure) below the system root HP:0000707 (Nervous
    system). *)
Definition seizure_graph : MultiDiGraph := {|
  nodes := [ ("HP:0000118", Some "Phenotypic abnormality");
             ("HP:0000707", Some "Nervous system");
             ("HP:0001250", Some "Seizure") ];
  edges := [ ("HP:0000707", "HP:0000118", "is_a");
             ("HP:0001250", "HP:0000707", "is_a") ];
|}.

(** Two system roots whose names differ only in case. *)
Definition tie_graph : MultiDiGraph := {|
  nodes := [ ("HP:0000118", Some "Phenotypic abnormality");
             ("HP:0000001", Some "A");
             ("HP:0000002", Some "a") ];
  edges := [ ("HP:0000001", "HP:0000118", "is_a");
             ("HP:0000002", "HP:0000118", "is_a") ];
|}.

Definition tie_systems : list (string * string) :=
  [ ("HP:0000002", "a"); ("HP:0000001", "A") ].

(** A system root that is also a child of another system root. *)
Definition nested_graph : MultiDiGraph := {|
  nodes := [ ("HP:0000118", Some "Phenotypic abnormality");
             ("HP:0000707", Some "Nervous system");
             ("HP:0012638", Some "Nervous system physiology") ];
  edges := [ ("HP:0000707", "HP:0000118", "is_a");
             ("HP:0012638", "HP:0000118", "is_a");
             ("HP:0012638", "HP:0000707", "is_a") ];
|}.

(** A term without a ["name"] attribute. *)
Definition unnamed_graph : MultiDiGraph := {|
  nodes := [ ("HP:0000118", Some "Phenotypic abnormality");
             ("HP:0000707", Some "Nervous system");
             ("HP:0001250", None) ];
  edges := [ ("HP:0000707", "HP:0000118", "is_a");
             ("HP:0001250", "HP:0000707", "is_a") ];
|}.

(** Two terms whose name is the empty string. *)
Definition empty_names_graph : MultiDiGraph := {|
  nodes := [ ("HP:0000001", Some ""); ("HP:0000002", Some "") ];
  edges := [];
|}.

(** Two terms with the same name up to case. *)
Definition same_name_graph : MultiDiGraph := {|
  nodes := [ ("HP:0000001", Some "Seizure"); ("HP:0000002", Some "SEIZURE") ];
  edges := [];
|}.

(** ** The embedding at work *)

Example strip_ex : Py.strip "  hp:0001626 	" = "hp:0001626".
Proof. reflexivity. Qed.
Example split_ex : Py.split ":" "a:b::c" = ["a"; "b"; ""; "c"].
Proof. reflexivity. Qed.
Example zfill_ex : Py.zfill 7 "-42" = "-000042".
Proof. reflexivity. Qed.
Example match_ex : Re.match_hp_id "hP:0001626" = true.
Proof. reflexivity. Qed.
Example match_ex2 : Re.match_hp_id "HP:00016261" = false.
Proof. reflexivity. Qed.
Example lower_ex : Py.lower "Nervous System" = "nervous system".
Proof. reflexivity. Qed.

Example seizure_roots :
  get_system_roots seizure_graph None = Ok [("HP:0000707", "Nervous system")].
Proof. vm_compute. reflexivity. Qed.

Example seizure_main :
  main seizure_graph None ["HP:0001250"; "nervous system"; "zzz"] =
  Ok [ fieldnames;
       ["HP:0001250"; "HP:0001250"; "Seizure"; ""; ""];
       ["nervous system"; "HP:0000707"; "Nervous system"; "HP:0000707";
        "Nervous system"];
       ["zzz"; ""; ""; ""; ""] ].
Proof. vm_compute. reflexivity. Qed.

(** ** Strings: trimming, splitting and the identifier pattern *)

Section strings.


Ltac by_cases_on_char c :=
  destruct c as [[] [] [] [] [] [] [] []]; vm_compute; intros;
  try discriminate; auto.

Lemma lit_ci_H c : Re.lit_ci "H" c = true → c = "H"%char ∨ c = "h"%char.
Proof. by_cases_on_char c. Qed.

Lemma lit_ci_P c : Re.lit_ci "P" c = true → c = "P"%char ∨ c = "p"%char.
Proof. by_cases_on_char c. Qed.

Lemma digit_not_special c :
  Py.is_digit c = true →
  Ascii.eqb c ":" = false ∧ Ascii.eqb c "+" = false ∧ Ascii.eqb c "-" = false.
Proof. by_cases_on_char c. Qed.

Lemma newline_is_space c : Ascii.eqb c "010" = true → Py.is_space c = true.
Proof. by_cases_on_char c. Qed.

Lemma app_empty_r s : s +:+ "" = s.
Proof. induction s as [|c s IH]; [done|].
  change (String c (s +:+ "") = String c s). by rewrite IH.
Qed.

Lemma rstrip_last s pre c :
  Py.rstrip s = pre +:+ String c "" → Py.is_space c = false.
Proof.
  revert pre. induction s as [|a s IH]; intros pre; simpl.
  - destruct pre; discriminate.
  - destruct (Py.rstrip s) as [|b r] eqn:E.
    + destruct (Py.is_space a) eqn:Ea.
      * destruct pre; discriminate.
      * destruct pre as [|x pre]; simpl; [by intros [= <-]|].
        intros [= _ H]. destruct pre; discriminate.
    + destruct pre as [|x pre]; simpl; [discriminate|].
      intros [= _ H]. by apply (IH pre).
Qed.

Lemma digits_inv n s tl :
  Re.digits n s = Some tl →
  ∃ d, s = d +:+ tl ∧ String.length d = n ∧ all_chars Py.is_digit d = true.
Proof.
  revert s. induction n as [|n IH]; intros s; simpl.
  - intros [= ->]. by exists "".
  - destruct s as [|c s]; [done|].
    destruct (Py.is_digit c) eqn:Ec; [|done].
    intros (d & -> & <- & Hd)%IH.
    exists (String c d). simpl. by rewrite Ec, Hd.
Qed.

Lemma split_nonempty sep s : Py.split sep s ≠ [].
Proof.
  destruct s as [|c s]; simpl; [done|].
  destruct (Ascii.eqb c sep); [done|]. by destruct (Py.split sep s).
Qed.

Lemma split_no_sep sep s :
  all_chars (λ c, negb (Ascii.eqb c sep)) s = true → Py.split sep s = [s].
Proof.
  induction s as [|c s IH]; simpl; [done|].
  intros [Hc Hs]%andb_prop. apply negb_true_iff in Hc.
  by rewrite Hc, (IH Hs).
Qed.

(** Splitting what was joined. *)
Lemma split_join sep (l : list string) :
  l ≠ [] →
  Forall (λ w, all_chars (λ c, negb (Ascii.eqb c sep)) w = true) l →
  Py.split sep (Py.join (String sep "") l) = l.
Proof.
  intros Hl Hall. induction Hall as [|x l Hx Hall IH]; [done|]. clear Hl.
  destruct l as [|y l].
  - simpl. by apply split_no_sep.
  - change (Py.join (String sep "") (x :: y :: l)) with
      (x +:+ String sep "" +:+ Py.join (String sep "") (y :: l)).
    specialize (IH ltac:(done)). revert IH.
    generalize (Py.join (String sep "") (y :: l)). intros rest IH.
    clear Hall. induction x as [|c x IHx].
    + change ("" +:+ String sep "" +:+ rest) with (String sep rest).
      simpl. by rewrite Ascii.eqb_refl, IH.
    + change (String c x +:+ String sep "" +:+ rest) with
        (String c (x +:+ String sep "" +:+ rest)).
      simpl in Hx. apply andb_prop in Hx as [Hc Hx]. apply negb_true_iff in Hc.
      simpl. by rewrite Hc, (IHx Hx).
Qed.

Lemma digits_no_colon d :
  all_chars Py.is_digit d = true →
  all_chars (λ c, negb (Ascii.eqb c ":")) d = true.
Proof.
  induction d as [|c d IH]; simpl; [done|].
  intros [Hc Hd]%andb_prop.
  destruct (digit_not_special c Hc) as (-> & _). simpl. auto.
Qed.

Lemma zfill_digits d :
  String.length d = 7 → all_chars Py.is_digit d = true → Py.zfill 7 d = d.
Proof.
  intros Hlen Hd. unfold Py.zfill. rewrite Hlen. simpl.
  destruct d as [|c d]; [done|].
  simpl in Hd. apply andb_prop in Hd as [Hc _].
  destruct (digit_not_special c Hc) as (_ & -> & ->). done.
Qed.

(** The shape of a string that the pattern accepts. *)
Lemma match_hp_id_inv t :
  Re.match_hp_id t = true →
  ∃ h p d tl,
    t = String h (String p (String ":" (d +:+ tl)))
    ∧ (h = "H"%char ∨ h = "h"%char) ∧ (p = "P"%char ∨ p = "p"%char)
    ∧ String.length d = 7 ∧ all_chars Py.is_digit d = true
    ∧ Re.at_end tl = true.
Proof.
  unfold Re.match_hp_id.
  destruct t as [|h [|p [|colon rest]]]; try done.
  destruct (Re.digits 7 rest) as [tl|] eqn:Hd;
    [|by rewrite andb_false_r].
  intros [[[Hh Hp]%andb_prop Hc%Ascii.eqb_eq]%andb_prop Hend]%andb_prop.
  subst colon.
  apply digits_inv in Hd as (d & -> & Hlen & Hdig).
  exists h, p, d, tl. eauto 10 using lit_ci_H, lit_ci_P.
Qed.

(** After [strip] nothing follows the seven digits. *)
Lemma match_hp_id_strip_inv term :
  Re.match_hp_id (Py.strip term) = true →
  ∃ h p d,
    Py.strip term = String h (String p (String ":" d))
    ∧ (h = "H"%char ∨ h = "h"%char) ∧ (p = "P"%char ∨ p = "p"%char)
    ∧ String.length d = 7 ∧ all_chars Py.is_digit d = true.
Proof.
  intros (h & p & d & tl & Ht & Hh & Hp & Hlen & Hd & Hend)%match_hp_id_inv.
  exists h, p, d. split_and!; try done.
  destruct tl as [|c [|??]]; simpl in Hend; try done.
  - rewrite Ht. by rewrite app_empty_r.
  - apply newline_is_space in Hend.
    unfold Py.strip in Ht.
    assert (Py.is_space c = false) as Hc; [|congruence].
    apply (rstrip_last (Py.lstrip term) (String h (String p (String ":" d)))).
    by rewrite Ht.
Qed.

(** [t.split(":")[1]] is there whenever the pattern has matched. *)
Lemma split_after_match t :
  Re.match_hp_id t = true → is_Some (Py.split ":" t !! 1).
Proof.
  intros (h & p & d & tl & -> & Hh & Hp & _)%match_hp_id_inv.
  destruct Hh as [-> | ->], Hp as [-> | ->]; simpl;
    (destruct (Py.split ":" (d +:+ tl)) eqn:E;
     [by apply split_nonempty in E | by eexists]).
Qed.

End strings.

(** ** Reachability: what [networkx.ancestors] collects *)

Section reachability.
Context (G : MultiDiGraph).

Implicit Types seen U : gset string.

Lemma elem_of_back seen u :
  u ∈ Nx.back G seen ↔ ∃ v, v ∈ seen ∧ Nx.edge G u v.
Proof.
  unfold Nx.back, Nx.edge. rewrite elem_of_list_to_set, list_elem_of_fmap.
  split.
  - intros ([[u' v] k] & -> & [Hv He]%list_elem_of_filter). simpl in *. eauto.
  - intros (v & Hv & k & He). exists (u, v, k). split; [done|].
    by apply list_elem_of_filter.
Qed.

Lemma back_mono seen U : seen ⊆ U → Nx.back G seen ⊆ Nx.back G U.
Proof. intros HU u. rewrite !elem_of_back. set_solver. Qed.

Lemma reach_back_incl rounds seen : seen ⊆ Nx.reach_back G rounds seen.
Proof.
  revert seen. induction rounds as [|r IH]; intros seen; simpl; [done|].
  etrans; [|apply IH]. set_solver.
Qed.

(** Whatever is collected has a path into the start set. *)
Lemma reach_back_sound rounds seen u :
  u ∈ Nx.reach_back G rounds seen → ∃ v, v ∈ seen ∧ rtc (Nx.edge G) u v.
Proof.
  revert seen. induction rounds as [|r IH]; intros seen; simpl.
  - intros Hu. by exists u.
  - intros (v & [Hv | Hv]%elem_of_union & Hp)%IH; [by eauto|].
    apply elem_of_back in Hv as (w & Hw & He).
    exists w. split; [done|]. etrans; [done|]. by apply rtc_once.
Qed.

(** A set closed under [back] holds every node with a path into it. *)
Lemma closed_rtc seen u v :
  Nx.back G seen ⊆ seen → rtc (Nx.edge G) u v → v ∈ seen → u ∈ seen.
Proof.
  intros Hcl. induction 1 as [|u w v He _ IH]; [done|].
  intros Hv. apply Hcl, elem_of_back. eauto.
Qed.

Lemma reach_back_closed_id rounds seen :
  Nx.back G seen ⊆ seen → Nx.reach_back G rounds seen = seen.
Proof.
  intros Hcl. induction rounds as [|r IH]; simpl; [done|].
  by replace (seen ∪ Nx.back G seen) with seen by set_solver.
Qed.

(** Each round that is not the last one adds a node, so the rounds that
    a universe [U] leaves room for reach a closed set. *)
Lemma reach_back_closed rounds seen U :
  seen ⊆ U → Nx.back G U ⊆ U → size U ≤ size seen + rounds →
  Nx.back G (Nx.reach_back G rounds seen) ⊆ Nx.reach_back G rounds seen.
Proof.
  intros Hsub HU. revert seen Hsub.
  induction rounds as [|r IH]; intros seen Hsub Hsize; simpl.
  - assert (seen = U) as ->; [|done].
    apply set_subseteq_size_eq; [done|lia].
  - destruct (decide (Nx.back G seen ⊆ seen)) as [Hcl|Hncl].
    + replace (seen ∪ Nx.back G seen) with seen by set_solver.
      by rewrite (reach_back_closed_id _ _ Hcl).
    + apply IH.
      * apply union_least; [done|]. etrans; [by apply back_mono|done].
      * assert (seen ⊂ seen ∪ Nx.back G seen) as Hlt%subset_size; [|lia].
        split; [set_solver|]. intros Hback. apply Hncl. set_solver.
Qed.

Lemma back_sources seen : Nx.back G seen ⊆ sources G.
Proof.
  intros u. unfold Nx.back, sources. rewrite !elem_of_list_to_set.
  rewrite !list_elem_of_fmap.
  intros (e & -> & [_ He]%list_elem_of_filter). eauto.
Qed.

Lemma size_union_le seen U : size (seen ∪ U) ≤ size seen + size U.
Proof.
  rewrite size_union_alt.
  assert (size (U ∖ seen) ≤ size U); [|lia].
  apply subseteq_size. set_solver.
Qed.

Lemma size_list_to_set_le (l : list string) :
  size (list_to_set l : gset string) ≤ length l.
Proof.
  induction l as [|x l IH]; simpl.
  - done.
  - etrans; [apply size_union_le|]. rewrite size_singleton. lia.
Qed.

(** [networkx.ancestors]: the nodes, other than [source], that have a
    path to [source] along the edges. *)
Lemma elem_of_nx_ancestors source u :
  u ∈ Nx.ancestors G source ↔ u ≠ source ∧ rtc (Nx.edge G) u source.
Proof.
  unfold Nx.ancestors. rewrite elem_of_difference, not_elem_of_singleton.
  split.
  - intros [(v & ->%elem_of_singleton & Hp)%reach_back_sound Hne]. done.
  - intros [Hne Hp]. split; [|done].
    eapply closed_rtc; [|done|].
    + apply (reach_back_closed _ _ ({[source]} ∪ sources G)).
      * set_solver.
      * etrans; [apply back_sources|set_solver].
      * rewrite size_singleton.
        etrans; [apply size_union_le|]. rewrite size_singleton.
        pose proof (size_list_to_set_le ((λ e, e.1.1) <$> edges G)) as Hle.
        rewrite length_fmap in Hle. unfold sources. lia.
    + apply reach_back_incl. set_solver.
Qed.

End reachability.

(** ** The stable sort *)

Section sorting.
Context {A : Type} (key : A → string).

Lemma insert_by_perm x l : insert_by key x l ≡ₚ x :: l.
Proof.
  induction l as [|y l IH]; simpl; [done|].
  destruct (String.leb (key x) (key y)); [done|].
  rewrite IH. apply Permutation_swap.
Qed.

Lemma sort_by_perm l : sort_by key l ≡ₚ l.
Proof.
  induction l as [|x l IH]; simpl; [done|].
  by rewrite insert_by_perm, IH.
Qed.

Lemma insert_by_sorted x l :
  StronglySorted (key_le key) l → StronglySorted (key_le key) (insert_by key x l).
Proof.
  induction 1 as [|y l Hl IH Hy]; simpl.
  - repeat constructor.
  - destruct (String.leb (key x) (key y)) eqn:Hxy.
    + constructor; [by constructor|].
      constructor; [by apply Is_true_true|].
      eapply Forall_impl; [done|]. intros z Hz.
      unfold key_le in *. etrans; [|done]. by apply Is_true_true.
    + constructor; [done|].
      rewrite insert_by_perm. constructor; [|done].
      destruct (total String.le (key x) (key y)) as [Hle|Hle]; [|done].
      apply Is_true_true in Hle. congruence.
Qed.

Lemma sort_by_sorted l : StronglySorted (key_le key) (sort_by key l).
Proof.
  induction l as [|x l IH]; simpl; [constructor|].
  by apply insert_by_sorted.
Qed.

(** Stability: among equal keys the order of the input is kept. *)
Lemma insert_by_stable k x l :
  filter (λ y, key y = k) (insert_by key x l) = filter (λ y, key y = k) (x :: l).
Proof.
  induction l as [|y l IH]; simpl; [done|].
  destruct (String.leb (key x) (key y)) eqn:Hxy; [done|].
  rewrite (filter_cons _ y), IH, !(filter_cons _ x), !(filter_cons _ y).
  destruct (decide (key x = k)) as [Hx|Hx], (decide (key y = k)) as [Hy|Hy];
    try done.
  exfalso. rewrite Hx, Hy in Hxy.
  assert (String.le k k) as Hkk%Is_true_true by done. congruence.
Qed.

Lemma sort_by_stable k l :
  filter (λ y, key y = k) (sort_by key l) = filter (λ y, key y = k) l.
Proof.
  induction l as [|x l IH]; simpl; [done|].
  by rewrite insert_by_stable, !filter_cons, IH.
Qed.

End sorting.

(** ** Classification *)

Section classification.
Context (G : MultiDiGraph).

Lemma has_node_true n : Nx.has_node G n = true ↔ n ∈ (nodes G).*1.
Proof. unfold Nx.has_node. apply bool_decide_eq_true. Qed.

(** In a graph that has [node], [ancestors] holds the nodes with a path
    to [node]: those below it, since an edge goes from child to parent. *)
Lemma elem_of_ancestors node u :
  Nx.has_node G node = true →
  u ∈ ancestors G node ↔ u ≠ node ∧ rtc (Nx.edge G) u node.
Proof.
  intros Hn. unfold ancestors. rewrite Hn. simpl. apply elem_of_nx_ancestors.
Qed.

(** What the code puts into the result: the entries of [systems] from
    which a path of edges leads to [node_id]. *)
Lemma elem_of_map_term_to_systems systems node_id x :
  x ∈ map_term_to_systems G systems node_id ↔
  Nx.has_node G node_id = true ∧ x ∈ systems ∧ rtc (Nx.edge G) x.1 node_id.
Proof.
  unfold map_term_to_systems.
  destruct (Nx.has_node G node_id) eqn:Hn; simpl.
  - rewrite sort_by_perm, list_elem_of_filter, elem_of_ancestors by done.
    split.
    + intros [[[_ Hp] | ->] Hx]; done.
    + intros (_ & Hx & Hp). split; [|done].
      destruct (decide (x.1 = node_id)); auto.
  - split; [by intros ?%elem_of_nil|by intros [? _]].
Qed.

End classification.

(** ** Dictionaries and the system roots *)

Section dict.
Context {V : Type}.
Implicit Types d : list (string * V).

Lemma dict_set_fresh d k v : k ∉ d.*1 → Dict.set d k v = d ++ [(k, v)].
Proof.
  induction d as [|[k' v'] d IH]; simpl; [done|].
  intros [Hne Hk]%not_elem_of_cons.
  destruct (decide (k = k')); [done|]. by rewrite IH.
Qed.

Lemma dict_get_Some d k v : Dict.get d k = Some v → (k, v) ∈ d.
Proof.
  induction d as [|[k' v'] d IH]; simpl; [done|].
  destruct (decide (k = k')) as [->|].
  - intros [= ->]. apply list_elem_of_here.
  - intros ?. by apply list_elem_of_further, IH.
Qed.

Lemma dict_get_is_Some d k : k ∈ d.*1 ↔ is_Some (Dict.get d k).
Proof.
  induction d as [|[k' v'] d IH]; simpl.
  - split; [by intros ?%elem_of_nil|by intros [? ?]].
  - rewrite elem_of_cons. destruct (decide (k = k')) as [->|]; simpl.
    + split; eauto.
    + rewrite IH. naive_solver.
Qed.

(** With unique keys, [Dict.get] finds the one entry of a key. *)
Lemma dict_get_unique d k v : NoDup d.*1 → (k, v) ∈ d → Dict.get d k = Some v.
Proof.
  induction d as [|[k' v'] d IH]; simpl; [by intros _ ?%elem_of_nil|].
  intros [Hk' Hd]%NoDup_cons [[= -> ->] | Hin]%elem_of_cons.
  - by rewrite decide_True.
  - destruct (decide (k = k')) as [->|]; [|by apply IH].
    exfalso. apply Hk'. apply list_elem_of_fmap. by exists (k', v).
Qed.

End dict.

Lemma filter_none {X} (P : X → Prop) `{!∀ x, Decision (P x)} (l : list X) :
  (∀ x, x ∈ l → ¬ P x) → filter P l = [].
Proof.
  induction l as [|x l IH]; intros Hl; [done|].
  rewrite filter_cons_False by (apply Hl, list_elem_of_here).
  apply IH. intros y Hy. by apply Hl, list_elem_of_further.
Qed.

(** With unique keys, a test that holds on exactly one key keeps exactly
    one entry. *)
Lemma filter_unique_key {V} (P : string * V → Prop) `{!∀ x, Decision (P x)}
    (l : list (string * V)) k v :
  NoDup l.*1 → (k, v) ∈ l → (∀ x, x ∈ l → P x ↔ x.1 = k) →
  filter P l = [(k, v)].
Proof.
  induction l as [|x l IH]; [by intros _ ?%elem_of_nil|].
  rewrite fmap_cons. intros [Hx Hl]%NoDup_cons Hin HP.
  apply elem_of_cons in Hin as [<- | Hin].
  - rewrite filter_cons_True by (apply HP; [apply list_elem_of_here|done]).
    f_equal. apply filter_none. intros y Hy Py.
    apply HP in Py; [|by apply list_elem_of_further].
    apply Hx. simpl. rewrite <-Py. apply list_elem_of_fmap. eauto.
  - assert (x.1 ≠ k) as Hne.
    { intros <-. apply Hx. apply list_elem_of_fmap. by exists (x.1, v). }
    rewrite filter_cons_False
      by (intros Px; apply Hne, HP; [apply list_elem_of_here|done]).
    apply IH; [done..|]. intros y Hy. by apply HP, list_elem_of_further.
Qed.

Section system_roots.
Context (G : MultiDiGraph) (restrict_to : option (gset string)).

Lemma kept_spec cid :
  restrict_truthy restrict_to && negb (in_restrict restrict_to cid) = false
  ↔ kept restrict_to cid.
Proof.
  unfold kept, restrict_truthy, in_restrict.
  destruct restrict_to as [s|]; [|done].
  rewrite andb_false_iff, negb_false_iff.
  rewrite bool_decide_eq_false, bool_decide_eq_true.
  split; (intros [?|?]; [left|by right]).
  - by destruct (decide (s = ∅)).
  - auto.
Qed.

Lemma elem_of_children cid : cid ∈ children G ↔ Nx.edge G cid PHENOTYPIC_ABN.
Proof.
  unfold children, Nx.in_edges, Nx.edge.
  rewrite elem_of_list_to_set, list_elem_of_fmap. split.
  - intros ([[u v] k] & -> & [Hv He]%list_elem_of_filter).
    simpl in *. subst v. eauto.
  - intros (k & He). exists (cid, PHENOTYPIC_ABN, k). split; [done|].
    by apply list_elem_of_filter.
Qed.

Lemma nx_node_Ok n : n ∈ (nodes G).*1 → ∃ attrs, Nx.node G n = Ok attrs.
Proof.
  intros [attrs Hn]%dict_get_is_Some. exists attrs.
  unfold Nx.node. by rewrite Hn.
Qed.

Lemma nx_node_elem n attrs : Nx.node G n = Ok attrs → (n, attrs) ∈ nodes G.
Proof.
  unfold Nx.node. destruct (Dict.get (nodes G) n) eqn:E; [|done].
  intros [= ->]. by apply dict_get_Some.
Qed.

Lemma system_roots_step_skip systems cid :
  ¬ kept restrict_to cid → system_roots_step G restrict_to systems cid = Ok systems.
Proof.
  rewrite <-kept_spec. unfold system_roots_step.
  by destruct (restrict_truthy restrict_to && negb (in_restrict restrict_to cid)).
Qed.

Lemma system_roots_step_keep systems cid :
  kept restrict_to cid →
  system_roots_step G restrict_to systems cid =
  (attrs ← Nx.node G cid; Ok (Dict.set systems cid (default "" attrs))).
Proof. rewrite <-kept_spec. unfold system_roots_step. by intros ->. Qed.

(** The loop adds, in the order of the iteration, the children that
    pass the test. *)
Lemma system_roots_loop l acc systems :
  NoDup l → (∀ k, k ∈ acc.*1 → k ∉ l) →
  for_fold (system_roots_step G restrict_to) l acc = Ok systems →
  ∃ tail, systems = acc ++ tail ∧ tail.*1 = filter (kept restrict_to) l
          ∧ Forall (recorded G) tail.
Proof.
  revert acc. induction l as [|cid l IH]; intros acc Hl Hacc; simpl.
  - intros [= <-]. exists []. by rewrite app_nil_r.
  - apply NoDup_cons in Hl as [Hcid Hl]. rewrite filter_cons.
    destruct (decide (kept restrict_to cid)) as [Hk|Hk].
    + rewrite system_roots_step_keep by done.
      destruct (Nx.node G cid) as [attrs|e] eqn:Hn; simpl; [|done].
      rewrite dict_set_fresh
        by (intros Hin; by apply (Hacc _ Hin), list_elem_of_here).
      intros (tail & -> & Hkeys & Hrec)%IH; [|done|].
      * exists ((cid, default "" attrs) :: tail).
        rewrite <-app_assoc. split_and!; [done|by rewrite fmap_cons, Hkeys|].
        constructor; [|done]. by exists attrs.
      * intros k. rewrite fmap_app, elem_of_app. simpl.
        intros [Hin | ->%list_elem_of_singleton]; [|done].
        specialize (Hacc k Hin). set_solver.
    + rewrite system_roots_step_skip by done. simpl. apply IH; [done|].
      intros k Hin. specialize (Hacc k Hin). set_solver.
Qed.

(** The loop can only fail on a child that is not a node. *)
Lemma system_roots_loop_total l acc :
  (∀ cid, cid ∈ l → cid ∈ (nodes G).*1) →
  ∃ systems, for_fold (system_roots_step G restrict_to) l acc = Ok systems.
Proof.
  revert acc. induction l as [|cid l IH]; intros acc Hl; simpl; [by eauto|].
  assert (∀ cid, cid ∈ l → cid ∈ (nodes G).*1) as Hl'
    by (intros ??; by apply Hl, list_elem_of_further).
  destruct (decide (kept restrict_to cid)) as [Hk|Hk].
  - rewrite system_roots_step_keep by done.
    destruct (nx_node_Ok cid) as [attrs ->]; [apply Hl, list_elem_of_here|].
    simpl. by apply IH.
  - rewrite system_roots_step_skip by done. simpl. by apply IH.
Qed.

Lemma system_roots_loop_raise l acc e :
  for_fold (system_roots_step G restrict_to) l acc = Raise e → ∃ k, e = KeyError k.
Proof.
  revert acc. induction l as [|cid l IH]; intros acc; simpl; [done|].
  destruct (decide (kept restrict_to cid)) as [Hk|Hk].
  - rewrite system_roots_step_keep by done.
    unfold Nx.node. destruct (Dict.get (nodes G) cid); simpl; [by apply IH|].
    intros [= <-]. eauto.
  - rewrite system_roots_step_skip by done. simpl. by apply IH.
Qed.

(** What [get_system_roots] returns when it returns. *)
Lemma get_system_roots_Ok systems :
  get_system_roots G restrict_to = Ok systems →
  Nx.has_node G PHENOTYPIC_ABN = true
  ∧ NoDup systems.*1
  ∧ (∀ cid, cid ∈ systems.*1 ↔ Nx.edge G cid PHENOTYPIC_ABN ∧ kept restrict_to cid)
  ∧ Forall (recorded G) systems.
Proof.
  unfold get_system_roots.
  destruct (Nx.has_node G PHENOTYPIC_ABN); simpl; [|done].
  intros (tail & -> & Hkeys & Hrec)%system_roots_loop;
    [|apply NoDup_elements|by intros ? ?%elem_of_nil].
  simpl. split_and!; [done| | |done].
  - rewrite Hkeys. apply NoDup_filter, NoDup_elements.
  - intros cid. rewrite Hkeys, list_elem_of_filter, elem_of_elements.
    rewrite elem_of_children. tauto.
Qed.

(** It returns whenever the root is a node of a well-formed graph. *)
Lemma get_system_roots_total :
  Nx.wf G → Nx.has_node G PHENOTYPIC_ABN = true →
  ∃ systems, get_system_roots G restrict_to = Ok systems.
Proof.
  intros Hwf Hroot. unfold get_system_roots. rewrite Hroot. simpl.
  apply system_roots_loop_total. intros cid.
  rewrite elem_of_elements, elem_of_children. intros [k He].
  destruct Hwf as [_ Hwf]. rewrite Forall_forall in Hwf.
  by apply Hwf in He as [? _].
Qed.

Lemma get_system_roots_absent :
  Nx.has_node G PHENOTYPIC_ABN = false →
  get_system_roots G restrict_to =
  Raise (ValueError "HP:0000118 not found in the ontology graph.").
Proof. intros Hroot. unfold get_system_roots. by rewrite Hroot. Qed.

End system_roots.

(** ** The name index and the resolution of terms *)

Section name_index.

Implicit Types (m : gmap string string) (l : list (string * option string)).

(** Nodes that do not carry the name [k] leave its entry alone. *)
Lemma name_index_other l m k :
  (∀ id name, (id, Some name) ∈ l → Py.truthy name = true → Py.lower name ≠ k) →
  foldl name_index_step m l !! k = m !! k.
Proof.
  revert m. induction l as [|[id [name|]] l IH]; intros m Hl; simpl; [done|..].
  - rewrite IH by (intros ????; eapply Hl; [by apply list_elem_of_further|done]).
    unfold name_index_step. simpl.
    destruct (Py.truthy name) eqn:Hn; [|done].
    apply lookup_insert_ne. eapply Hl; [apply list_elem_of_here|done].
  - apply IH. intros ????. eapply Hl; [by apply list_elem_of_further|done].
Qed.

(** The last node that carries a name owns its entry. *)
Lemma name_index_last l1 l2 m id name :
  Py.truthy name = true →
  (∀ id' name', (id', Some name') ∈ l2 → Py.truthy name' = true →
                Py.lower name' ≠ Py.lower name) →
  foldl name_index_step m (l1 ++ (id, Some name) :: l2) !! Py.lower name = Some id.
Proof.
  intros Hn Hl2. rewrite foldl_app. simpl.
  rewrite name_index_other by done.
  unfold name_index_step at 1. simpl. rewrite Hn. apply lookup_insert_eq.
Qed.

(** Every entry comes from a node with that name. *)
Lemma name_index_sound l m k id :
  foldl name_index_step m l !! k = Some id →
  m !! k = Some id
  ∨ ∃ name, (id, Some name) ∈ l ∧ Py.truthy name = true ∧ Py.lower name = k.
Proof.
  revert m. induction l as [|[id' attrs] l IH]; intros m; simpl; [by left|].
  intros [Hm | (name & Hin & Hn & Hk)]%IH.
  - unfold name_index_step in Hm. simpl in Hm.
    destruct attrs as [name|]; [|by left].
    destruct (Py.truthy name) eqn:Hn; [|by left].
    destruct (decide (Py.lower name = k)) as [<-|Hne].
    + rewrite lookup_insert_eq in Hm. injection Hm as ->.
      right. exists name. split_and!; [apply list_elem_of_here|done..].
    + rewrite lookup_insert_ne in Hm by done. by left.
  - right. exists name. split_and!; [by apply list_elem_of_further|done..].
Qed.

Lemma build_name_index_sound G k id :
  build_name_index G !! k = Some id →
  ∃ name, (id, Some name) ∈ nodes G ∧ Py.truthy name = true ∧ Py.lower name = k.
Proof.
  intros [Hm | H]%name_index_sound; [|done].
  by rewrite lookup_empty in Hm.
Qed.

(** The three ways out of [resolve_input_to_id]. *)
Lemma resolve_empty term m :
  Py.strip term = "" → resolve_input_to_id term m = None.
Proof. unfold resolve_input_to_id. by intros ->. Qed.

Lemma resolve_by_pattern term m :
  Re.match_hp_id (Py.strip term) = true →
  resolve_input_to_id term m =
  Some ("HP:" +:+ Py.zfill 7 (default "" (Py.split ":" (Py.strip term) !! 1))).
Proof.
  unfold resolve_input_to_id. intros Hm. rewrite Hm.
  by destruct (Py.strip term).
Qed.

Lemma resolve_by_name term m :
  Re.match_hp_id (Py.strip term) = false →
  Py.strip term ≠ "" →
  resolve_input_to_id term m = m !! Py.lower (Py.strip term).
Proof.
  unfold resolve_input_to_id. intros -> Hne.
  by destruct (Py.strip term).
Qed.

End name_index.

Lemma substring_all s : substring 0 (String.length s) s = s.
Proof. induction s as [|c s IH]; simpl; [done|]. by rewrite IH. Qed.

Lemma truthy_ne s : Py.truthy s = true ↔ s ≠ "".
Proof. by destruct s. Qed.

(** The value that the pattern branch returns: the prefix in upper case
    and the seven digits as they are. *)
Lemma resolve_by_pattern_digits term m :
  Re.match_hp_id (Py.strip term) = true →
  ∃ h p d,
    Py.strip term = String h (String p (String ":" d))
    ∧ String.length d = 7 ∧ all_chars Py.is_digit d = true
    ∧ resolve_input_to_id term m = Some ("HP:" +:+ d).
Proof.
  intros Hm. rewrite (resolve_by_pattern _ _ Hm).
  apply match_hp_id_strip_inv in Hm as (h & p & d & -> & Hh & Hp & Hlen & Hd).
  exists h, p, d. split_and!; [done..|].
  assert (Py.split ":" (String h (String p (String ":" d))) =
          [String h (String p ""); d]) as ->.
  { cbn [Py.split]. rewrite (split_no_sep ":" d) by by apply digits_no_colon.
    by destruct Hh as [-> | ->], Hp as [-> | ->]. }
  simpl. by rewrite zfill_digits.
Qed.

(** ** The pipeline *)

Section loops.
Context {A B : Type} (body : A → result B).

Lemma for_each_Ok l bs :
  for_each body l = Ok bs → Forall2 (λ a b, body a = Ok b) l bs.
Proof.
  revert bs. induction l as [|a l IH]; intros bs; simpl.
  - intros [= <-]. constructor.
  - destruct (body a) as [b|e] eqn:Hb; simpl; [|done].
    destruct (for_each body l) as [bs'|e]; simpl; [|done].
    intros [= <-]. constructor; auto.
Qed.

Lemma for_each_total l :
  Forall (λ a, ∃ b, body a = Ok b) l → ∃ bs, for_each body l = Ok bs.
Proof.
  induction 1 as [|a l [b Hb] _ [bs IH]]; simpl; [by eauto|].
  rewrite Hb, IH. simpl. eauto.
Qed.

Lemma for_each_raise l e :
  for_each body l = Raise e → ∃ a, a ∈ l ∧ body a = Raise e.
Proof.
  induction l as [|a l IH]; simpl; [done|].
  destruct (body a) as [b|e'] eqn:Hb; simpl.
  - destruct (for_each body l) as [bs'|e']; simpl; [done|].
    intros [= ->]. destruct IH as (a' & Hin & Ha'); [done|].
    exists a'. split; [by apply list_elem_of_further|done].
  - intros [= ->]. exists a. split; [apply list_elem_of_here|done].
Qed.

End loops.

Section pipeline.
Context (G : MultiDiGraph).

Lemma join_or_empty {X} (f : X → string) (l : list X) :
  match l with [] => "" | _ => Py.join "|" (f <$> l) end = Py.join "|" (f <$> l).
Proof. by destruct l. Qed.

Lemma main_row_Ok name_to_id system_roots raw r :
  main_row G name_to_id system_roots raw = Ok r →
  ∃ resolved_name systems,
    r = record raw (resolve_input_to_id raw name_to_id) resolved_name systems
    ∧ (resolve_input_to_id raw name_to_id = None →
       resolved_name = None ∧ systems = []).
Proof.
  unfold main_row, record. cbv zeta. rewrite !join_or_empty.
  unfold mbind, result_bind.
  destruct (resolve_input_to_id raw name_to_id) as [rid|];
    cbn [default from_option]; unfold id.
  - destruct (Py.truthy rid && Nx.has_node G rid).
    + destruct (Nx.node G rid) as [[name|]|]; cbv beta iota; try done.
      intros [= <-]. by eexists (Some name), _.
    + cbv beta iota. intros [= <-]. by eexists None, _.
  - cbn [andb]. cbv beta iota. intros [= <-]. by exists None, [].
Qed.

(** The only error of the loop body: a resolved node without a name. *)
Lemma main_row_raise name_to_id system_roots raw e :
  main_row G name_to_id system_roots raw = Raise e →
  e = KeyError "name"
  ∧ ∃ rid, resolve_input_to_id raw name_to_id = Some rid
           ∧ (rid, None) ∈ nodes G.
Proof.
  unfold main_row.
  destruct (resolve_input_to_id raw name_to_id) as [rid|]; simpl; [|done].
  destruct (Py.truthy rid && Nx.has_node G rid) eqn:Hn; simpl; [|done].
  apply andb_prop in Hn as [_ Hn%has_node_true].
  destruct (nx_node_Ok G rid Hn) as [attrs Hattrs]. rewrite Hattrs. simpl.
  destruct attrs as [name|]; [done|]. intros [= <-].
  split; [done|]. exists rid. split; [done|]. by apply nx_node_elem.
Qed.

Lemma writerow_record raw resolved_id resolved_name systems :
  writerow (record raw resolved_id resolved_name systems) =
  Ok (record raw resolved_id resolved_name systems).*2.
Proof. reflexivity. Qed.

Lemma main_results_Ok restrict_ids inputs results :
  main_results G restrict_ids inputs = Ok results →
  ∃ system_roots,
    get_system_roots G (parse_restrict restrict_ids) = Ok system_roots
    ∧ Forall2 (λ raw r, main_row G (build_name_index G) system_roots raw = Ok r)
              inputs results.
Proof.
  unfold main_results.
  destruct (get_system_roots G (parse_restrict restrict_ids)) as [roots|];
    simpl; [|done].
  intros ?%for_each_Ok. eauto.
Qed.

Lemma write_output_records rows :
  Forall (λ r, ∃ raw rid name systems, r = record raw rid name systems) rows →
  write_output rows = Ok (fieldnames :: ((λ r, r.*2) <$> rows)).
Proof.
  intros Hrows. unfold write_output.
  assert (for_each writerow rows = Ok ((λ r, r.*2) <$> rows)) as ->; [|done].
  induction Hrows as [|r rows (raw & rid & name & systems & ->) _ IH]; [done|].
  cbn [for_each]. by rewrite writerow_record, IH.
Qed.

(** Without the root there is a [ValueError], whatever the inputs. *)
Lemma main_root_absent restrict_ids inputs :
  Nx.has_node G PHENOTYPIC_ABN = false →
  main G restrict_ids inputs =
  Raise (ValueError "HP:0000118 not found in the ontology graph.").
Proof.
  intros Hroot. unfold main, main_results.
  by rewrite get_system_roots_absent.
Qed.

(** With the root, and a name on every node, there is one line per input
    below the header. *)
Lemma main_named_total restrict_ids inputs :
  Nx.wf G → Nx.has_node G PHENOTYPIC_ABN = true →
  (∀ id, (id, None) ∉ nodes G) →
  ∃ lines, main G restrict_ids inputs = Ok (fieldnames :: lines)
           ∧ length lines = length inputs.
Proof.
  intros Hwf Hroot Hnamed. unfold main.
  destruct (main_results G restrict_ids inputs) as [results|e] eqn:Hres; simpl.
  - pose proof Hres as (roots & _ & Hrows)%main_results_Ok.
    rewrite write_output_records.
    + eexists. split; [done|].
      rewrite length_fmap. symmetry. by eapply Forall2_length.
    + clear Hres. induction Hrows as [|raw r ?? Hr _ IH]; constructor; [|done].
      apply main_row_Ok in Hr as (name & systems & -> & _). eauto.
  - exfalso. unfold main_results in Hres.
    destruct (get_system_roots_total G (parse_restrict restrict_ids) Hwf Hroot)
      as [roots Hroots].
    rewrite Hroots in Hres. simpl in Hres.
    apply for_each_raise in Hres as (raw & _ & Hraw).
    apply main_row_raise in Hraw as (_ & rid & _ & Hin).
    by apply (Hnamed rid).
Qed.

(** X18. An input that resolves to a node with a name gets a row with the
    identifier, the name of the node and the classification of the
    node. *)
Lemma main_row_named name_to_id system_roots raw rid name :
  resolve_input_to_id raw name_to_id = Some rid →
  rid ≠ "" →
  Nx.node G rid = Ok (Some name) →
  main_row G name_to_id system_roots raw =
  Ok (record raw (Some rid) (Some name) (map_term_to_systems G system_roots rid)).
Proof.
  intros Hr Hrid%truthy_ne Hn. unfold main_row, record. cbv zeta.
  rewrite !join_or_empty, Hr. cbn [default from_option]. unfold id.
  rewrite Hrid, Hn.
  assert (Nx.has_node G rid = true) as ->; [|done].
  apply has_node_true, list_elem_of_fmap. exists (rid, Some name).
  split; [done|]. by apply nx_node_elem.
Qed.

(** X19. In a well-formed graph a run ends in a [ValueError] exactly when
    the root is not a node, whatever the inputs and the allow-list. *)
Lemma main_ValueError_iff restrict_ids inputs :
  Nx.wf G →
  (∃ msg, main G restrict_ids inputs = Raise (ValueError msg))
  ↔ Nx.has_node G PHENOTYPIC_ABN = false.
Proof.
  intros Hwf. split; [|intros Hroot; eexists; by apply main_root_absent].
  intros [msg Hmain]. destruct (Nx.has_node G PHENOTYPIC_ABN) eqn:Hroot; [|done].
  exfalso. unfold main in Hmain.
  destruct (main_results G restrict_ids inputs) as [results|e] eqn:Hres;
    simpl in Hmain.
  - rewrite write_output_records in Hmain; [done|].
    apply main_results_Ok in Hres as (roots & _ & Hrows). clear Hmain.
    induction Hrows as [|raw r ?? Hr _ IH]; constructor; [|done].
    apply main_row_Ok in Hr as (name & systems & -> & _). eauto.
  - injection Hmain as ->. unfold main_results in Hres.
    destruct (get_system_roots_total G (parse_restrict restrict_ids) Hwf Hroot)
      as [roots Hroots].
    rewrite Hroots in Hres. simpl in Hres.
    by apply for_each_raise in Hres as (raw & _ & [? _]%main_row_raise).
Qed.

End pipeline.

(** ** Classification *)

(** C1. In the graph where HP:0001250 (Seizure) is below the system root
    HP:0000707 (Nervous system), the root is reachable from the term along
    the child-to-parent edges and it is the one system root, yet the
    classification of HP:0001250 is empty: [ancestors] collects the nodes
    with a path to the term, not those the term has a path to. *)
Theorem seizure_classified_to_nothing :
  rtc (Nx.edge seizure_graph) "HP:0001250" "HP:0000707"
  ∧ get_system_roots seizure_graph None = Ok [("HP:0000707", "Nervous system")]
  ∧ ancestors seizure_graph "HP:0000707" = {["HP:0001250"]}
  ∧ ancestors seizure_graph "HP:0001250" = ∅
  ∧ map_term_to_systems seizure_graph [("HP:0000707", "Nervous system")]
      "HP:0001250" = [].
Proof.
  split_and!.
  - apply rtc_once. exists "is_a". unfold seizure_graph. simpl. set_solver.
  - vm_compute. reflexivity.
  - vm_compute. reflexivity.
  - vm_compute. reflexivity.
  - vm_compute. reflexivity.
Qed.

(** C3, as stated, fails: two entries with equal lower-cased names come
    out in the order of the system-root mapping, here with the greater
    identifier first, and the other order of the mapping gives the other
    result. *)
Lemma ties_not_ordered_by_identifier :
  map_term_to_systems tie_graph tie_systems "HP:0000118" =
    [("HP:0000002", "a"); ("HP:0000001", "A")]
  ∧ ¬ name_then_id ("HP:0000002", "a") ("HP:0000001", "A")
  ∧ map_term_to_systems tie_graph (reverse tie_systems) "HP:0000118" =
    [("HP:0000001", "A"); ("HP:0000002", "a")].
Proof.
  split_and!; [by vm_compute| |by vm_compute].
  intros [Hlt | [_ Hle]]; [by vm_compute in Hlt|].
  by vm_compute in Hle.
Qed.

(** C3, amended. Every classification result is sorted ascending by
    lower-cased name, and the entries of one lower-cased name keep the
    order that they have in the system-root mapping. *)
Theorem classification_sorted_by_name G systems node_id :
  StronglySorted (λ a b, String.le (Py.lower a.2) (Py.lower b.2))
    (map_term_to_systems G systems node_id)
  ∧ ∀ k, filter (λ x, Py.lower x.2 = k) (map_term_to_systems G systems node_id)
         `sublist_of` systems.
Proof.
  unfold map_term_to_systems.
  destruct (Nx.has_node G node_id); simpl.
  - split; [apply (sort_by_sorted (λ x, Py.lower x.2))|].
    intros k. rewrite (sort_by_stable (λ x, Py.lower x.2)).
    etrans; apply sublist_filter; apply _.
  - split; [constructor|]. intros k. apply sublist_nil_l.
Qed.

(** C8, as stated, fails: HP:0000707 is a system root, and so is its child
    HP:0012638; classifying HP:0000707 gives two entries. *)
Lemma system_root_with_nested_root :
  ∃ systems,
    get_system_roots nested_graph None = Ok systems
    ∧ "HP:0000707" ∈ systems.*1
    ∧ map_term_to_systems nested_graph systems "HP:0000707" =
      [ ("HP:0000707", "Nervous system");
        ("HP:0012638", "Nervous system physiology") ].
Proof.
  eexists. split_and!; [by vm_compute| |by vm_compute].
  simpl. set_solver.
Qed.

(** C8, amended. Classifying a system root R gives a list that has the
    pair (R, name(R)), the name being empty for a root without one; the
    list is that single pair whenever no other system root is linked to R
    by a path of edges, upward or downward. *)
Theorem classify_system_root G restrict_to systems R :
  get_system_roots G restrict_to = Ok systems →
  R ∈ systems.*1 →
  ∃ attrs,
    Nx.node G R = Ok attrs
    ∧ (R, default "" attrs) ∈ map_term_to_systems G systems R
    ∧ ((∀ S, S ∈ systems.*1 → S ≠ R →
             ¬ rtc (Nx.edge G) S R ∧ ¬ rtc (Nx.edge G) R S) →
       map_term_to_systems G systems R = [(R, default "" attrs)]).
Proof.
  intros (_ & Hnodup & _ & Hrec)%get_system_roots_Ok
         ([R' nm] & -> & Hin)%list_elem_of_fmap.
  simpl. rewrite Forall_forall in Hrec.
  destruct (Hrec _ Hin) as (attrs & Hattrs & Hnm). simpl in *. subst nm.
  assert (Nx.has_node G R' = true) as Hnode.
  { apply has_node_true, list_elem_of_fmap. exists (R', attrs).
    split; [done|]. by apply nx_node_elem. }
  exists attrs. split_and!; [done|..].
  - apply elem_of_map_term_to_systems. by split_and!.
  - intros Halone. unfold map_term_to_systems. rewrite Hnode. simpl.
    rewrite (filter_unique_key _ _ R' (default "" attrs)); [done..|].
    intros x Hx. rewrite elem_of_ancestors by done. split; [|by auto].
    intros [[Hne Hp] | ?]; [|done].
    destruct (Halone x.1) as [Hup _]; [|done..].
    apply list_elem_of_fmap. eauto.
Qed.

(** The statement above at the one system root of [seizure_graph]. *)
Lemma classify_system_root_witness :
  get_system_roots seizure_graph None = Ok [("HP:0000707", "Nervous system")]
  ∧ map_term_to_systems seizure_graph [("HP:0000707", "Nervous system")]
      "HP:0000707" = [("HP:0000707", "Nervous system")].
Proof.
  split; [reflexivity|].
  destruct (classify_system_root seizure_graph None
              [("HP:0000707", "Nervous system")] "HP:0000707")
    as (attrs & Hattrs & _ & Hone); [reflexivity|simpl; set_solver|].
  vm_compute in Hattrs. injection Hattrs as <-. apply Hone.
  intros S [->|[]%elem_of_nil]%elem_of_cons Hne. done.
Defined.

(** ** System roots *)

(** C5, as stated, fails on the empty allow-list, which [main] builds
    from an option without identifiers: the child of the root stays. *)
Lemma empty_allow_list_keeps_children :
  parse_restrict (Some ",") = Some ∅
  ∧ get_system_roots seizure_graph (Some ∅) = Ok [("HP:0000707", "Nervous system")]
  ∧ "HP:0000707" ∉ (∅ : gset string).
Proof. split_and!; [by vm_compute..|set_solver]. Qed.

(** C5, amended. For a graph with the root and an allow-list that is not
    empty, the system roots are the direct children of the root that are
    in the allow-list; with an empty allow-list, as with none, they are
    all the direct children of the root. *)
Theorem system_roots_allow_list G restrict_to :
  Nx.wf G → Nx.has_node G PHENOTYPIC_ABN = true →
  ∃ systems,
    get_system_roots G restrict_to = Ok systems
    ∧ NoDup systems.*1
    ∧ ∀ cid, cid ∈ systems.*1 ↔
             Nx.edge G cid PHENOTYPIC_ABN
             ∧ match restrict_to with
               | Some s => s = ∅ ∨ cid ∈ s
               | None => True
               end.
Proof.
  intros Hwf Hroot.
  destruct (get_system_roots_total G restrict_to Hwf Hroot) as [systems Hs].
  exists systems. split; [done|].
  by apply get_system_roots_Ok in Hs as (_ & ? & ? & _).
Qed.

(** The statement above at [seizure_graph] with an allow-list of two
    identifiers. *)
Lemma system_roots_allow_list_witness :
  Nx.wf seizure_graph ∧ Nx.has_node seizure_graph PHENOTYPIC_ABN = true
  ∧ ∃ systems,
      get_system_roots seizure_graph (Some {["HP:0000707"; "HP:0000818"]}) =
        Ok systems
      ∧ NoDup systems.*1
      ∧ ∀ cid, cid ∈ systems.*1 ↔
               Nx.edge seizure_graph cid PHENOTYPIC_ABN
               ∧ (({["HP:0000707"; "HP:0000818"]} : gset string) = ∅
                  ∨ cid ∈ ({["HP:0000707"; "HP:0000818"]} : gset string)).
Proof.
  assert (Nx.wf seizure_graph) as Hwf
    by (apply (bool_decide_unpack (Nx.wf seizure_graph)); by vm_compute).
  split_and!; [done|reflexivity|].
  apply (system_roots_allow_list seizure_graph
           (Some {["HP:0000707"; "HP:0000818"]}) Hwf).
  reflexivity.
Defined.

(** ** Resolution *)

(** C9. An input that, once trimmed, matches the identifier pattern is ten
    characters long and resolves to ["HP:"] followed by its seven digits
    unchanged. *)
Theorem resolve_identifier_canonical term name_to_id :
  Re.match_hp_id (Py.strip term) = true →
  resolve_input_to_id term name_to_id =
    Some ("HP:" +:+ substring 3 7 (Py.strip term))
  ∧ String.length (Py.strip term) = 10
  ∧ all_chars Py.is_digit (substring 3 7 (Py.strip term)) = true.
Proof.
  intros (h & p & d & -> & Hlen & Hd & ->)%(resolve_by_pattern_digits _ name_to_id).
  cbn [substring String.length]. rewrite <-Hlen at 1 3.
  rewrite substring_all, Hlen. done.
Qed.

(** The statement above at the two spellings of HP:0001626. *)
Lemma resolve_identifier_canonical_witness :
  (Re.match_hp_id (Py.strip "hp:0001626") = true
   ∧ resolve_input_to_id "hp:0001626" ∅ = Some "HP:0001626")
  ∧ (Re.match_hp_id (Py.strip "HP:0001626") = true
     ∧ resolve_input_to_id "HP:0001626" ∅ = Some "HP:0001626").
Proof.
  split; (split; [reflexivity|]).
  - exact (proj1 (resolve_identifier_canonical "hp:0001626" ∅ eq_refl)).
  - exact (proj1 (resolve_identifier_canonical "HP:0001626" ∅ eq_refl)).
Defined.

(** C4, as stated, fails: an input of the shape of an identifier resolves
    to that identifier although the graph has no such node. *)
Lemma pattern_id_absent_from_graph :
  resolve_input_to_id "HP:9999999" (build_name_index seizure_graph) =
    Some "HP:9999999"
  ∧ Nx.has_node seizure_graph "HP:9999999" = false.
Proof. split; by vm_compute. Qed.

(** C4, amended. A resolved identifier is either the canonical form of an
    input that matches the identifier pattern, whether or not the graph has
    that node, or the identifier of a node of the graph whose name is the
    trimmed input up to case. *)
Theorem resolved_id_origin G raw id :
  resolve_input_to_id raw (build_name_index G) = Some id →
  (Re.match_hp_id (Py.strip raw) = true
   ∧ id = "HP:" +:+ substring 3 7 (Py.strip raw))
  ∨ (Re.match_hp_id (Py.strip raw) = false
     ∧ Nx.has_node G id = true
     ∧ ∃ name, (id, Some name) ∈ nodes G
               ∧ Py.lower name = Py.lower (Py.strip raw)).
Proof.
  destruct (Re.match_hp_id (Py.strip raw)) eqn:Hm.
  - destruct (resolve_by_pattern_digits raw (build_name_index G) Hm)
      as (h & p & d & Hs & Hlen & _ & ->).
    intros [= <-]. left. split; [done|]. rewrite Hs.
    cbn [substring]. by rewrite <-Hlen, substring_all.
  - destruct (decide (Py.strip raw = "")) as [He|Hne].
    { by rewrite resolve_empty. }
    rewrite resolve_by_name by done.
    intros (name & Hin & _ & Hname)%build_name_index_sound.
    right. split_and!; [done| |by eauto].
    apply has_node_true, list_elem_of_fmap. by exists (id, Some name).
Qed.

(** The statement above at a name of [seizure_graph]. *)
Lemma resolved_id_origin_witness :
  resolve_input_to_id " seizure" (build_name_index seizure_graph) =
    Some "HP:0001250"
  ∧ Nx.has_node seizure_graph "HP:0001250" = true.
Proof.
  split; [reflexivity|].
  destruct (resolved_id_origin seizure_graph " seizure" "HP:0001250" eq_refl)
    as [[Hm _] | (_ & Hn & _)]; [|exact Hn].
  vm_compute in Hm. discriminate Hm.
Defined.

(** ** The name index *)

(** C10, as stated, fails for names that are the empty string: two nodes
    carry it, and the index has no entry for it. *)
Lemma empty_names_not_indexed :
  nodes empty_names_graph =
    [("HP:0000001", Some "")] ++ ("HP:0000002", Some "") :: []
  ∧ build_name_index empty_names_graph !! Py.lower "" = None.
Proof. split; by vm_compute. Qed.

(** C10, amended. When nodes carry names that are not empty and that are
    equal once lower-cased, the index maps the lower-cased name to the last
    of these nodes in the iteration order of the graph. A node whose name
    is absent or the empty string is not indexed: every entry of the index
    stems from a node with a name that is not empty, the empty string is
    no key, and, the node keys being unique, no key leads to such a node.
    A name that is not in the index resolves to nothing, without an
    error. *)
Theorem name_index_last_wins G :
  (∀ l1 l2 id name,
     nodes G = l1 ++ (id, Some name) :: l2 →
     name ≠ "" →
     (∀ id' name', (id', Some name') ∈ l2 → name' ≠ "" →
                   Py.lower name' ≠ Py.lower name) →
     build_name_index G !! Py.lower name = Some id)
  ∧ (∀ k id,
       build_name_index G !! k = Some id →
       ∃ name, (id, Some name) ∈ nodes G ∧ name ≠ "" ∧ Py.lower name = k)
  ∧ build_name_index G !! "" = None
  ∧ (NoDup (nodes G).*1 →
     ∀ id attrs, (id, attrs) ∈ nodes G → attrs = None ∨ attrs = Some "" →
                 ∀ k, build_name_index G !! k ≠ Some id)
  ∧ (∀ (name_to_id : gmap string string) term,
       Re.match_hp_id (Py.strip term) = false →
       name_to_id !! Py.lower (Py.strip term) = None →
       resolve_input_to_id term name_to_id = None).
Proof.
  assert (∀ k id, build_name_index G !! k = Some id →
            ∃ name, (id, Some name) ∈ nodes G ∧ name ≠ "" ∧ Py.lower name = k)
    as Hsound.
  { intros k id (name & Hin & Hname%truthy_ne & Hk)%build_name_index_sound.
    eauto. }
  split_and!.
  - intros l1 l2 id name HG Hname Hlast.
    unfold build_name_index. rewrite HG.
    apply name_index_last; [by apply truthy_ne|].
    intros id' name' Hin Hn'%truthy_ne. by eapply Hlast.
  - done.
  - destruct (build_name_index G !! "") as [id|] eqn:Hk; [|done].
    apply Hsound in Hk as (name & _ & Hname & Hlow). by destruct name.
  - intros Hnodup id attrs Hin Hattrs k (name & Hin' & Hname & _)%Hsound.
    pose proof (dict_get_unique _ _ _ Hnodup Hin) as H1.
    pose proof (dict_get_unique _ _ _ Hnodup Hin') as H2.
    rewrite H1 in H2. injection H2 as ->. by destruct Hattrs as [?|[= ->]].
  - intros name_to_id term Hm Hk.
    destruct (decide (Py.strip term = "")) as [He|Hne].
    + by apply resolve_empty.
    + by rewrite resolve_by_name.
Qed.

(** The statement above at [same_name_graph] and, for the names that are
    absent or empty, at [unnamed_graph] and [empty_names_graph]. *)
Lemma name_index_last_wins_witness :
  build_name_index same_name_graph !! "seizure" = Some "HP:0000002"
  ∧ resolve_input_to_id "Fever" (build_name_index same_name_graph) = None
  ∧ (∀ k, build_name_index unnamed_graph !! k ≠ Some "HP:0001250")
  ∧ (∀ k, build_name_index empty_names_graph !! k ≠ Some "HP:0000002").
Proof.
  destruct (name_index_last_wins same_name_graph)
    as (Hlast & _ & _ & _ & Habsent).
  destruct (name_index_last_wins unnamed_graph) as (_ & _ & _ & Hnone & _).
  destruct (name_index_last_wins empty_names_graph) as (_ & _ & _ & Hempty & _).
  split_and!.
  - apply (Hlast [("HP:0000001", Some "Seizure")] [] "HP:0000002" "SEIZURE");
      [reflexivity|discriminate|].
    intros id' name' Hin. by apply elem_of_nil in Hin.
  - apply Habsent; reflexivity.
  - assert (NoDup (nodes unnamed_graph).*1) as Hnd
      by (apply (bool_decide_unpack (NoDup (nodes unnamed_graph).*1));
          by vm_compute).
    apply (Hnone Hnd "HP:0001250" None); [|by left].
    simpl. set_solver.
  - assert (NoDup (nodes empty_names_graph).*1) as Hnd
      by (apply (bool_decide_unpack (NoDup (nodes empty_names_graph).*1));
          by vm_compute).
    apply (Hempty Hnd "HP:0000002" (Some "")); [|by right].
    simpl. set_solver.
Defined.

(** ** Output records *)

(** C2, as stated, fails: the second and third field of a record are
    [resolved_hpo_id] and [resolved_hpo_name]. *)
Lemma record_fields_not_as_claimed :
  main_results seizure_graph None ["nervous system"] =
    Ok [ [ ("input", "nervous system");
           ("resolved_hpo_id", "HP:0000707");
           ("resolved_hpo_name", "Nervous system");
           ("system_level_ids", "HP:0000707");
           ("system_level_names", "Nervous system") ] ]
  ∧ fieldnames ≠ short_fieldnames.
Proof. split; [by vm_compute|discriminate]. Qed.

(** The cells of a row, from the resolution of the input, the graph and
    the system roots. *)
Lemma main_row_cells G name_to_id system_roots raw r :
  main_row G name_to_id system_roots raw = Ok r →
  ∃ rid_cell name_cell systems,
    r = [ ("input", raw);
          ("resolved_hpo_id", rid_cell);
          ("resolved_hpo_name", name_cell);
          ("system_level_ids", Py.join "|" systems.*1);
          ("system_level_names", Py.join "|" systems.*2) ]
    ∧ match resolve_input_to_id raw name_to_id with
      | Some rid =>
          rid_cell = rid
          ∧ systems = (if Py.truthy rid
                       then map_term_to_systems G system_roots rid else [])
          ∧ (if Py.truthy rid && Nx.has_node G rid
             then Nx.node G rid = Ok (Some name_cell)
             else name_cell = "")
      | None => rid_cell = "" ∧ name_cell = "" ∧ systems = []
      end.
Proof.
  unfold main_row. cbv zeta. rewrite !join_or_empty.
  unfold mbind, result_bind.
  destruct (resolve_input_to_id raw name_to_id) as [rid|];
    cbn [default from_option]; unfold id.
  - assert (Py.or_else (Some rid) "" = rid) as -> by by destruct rid.
    destruct (Py.truthy rid && Nx.has_node G rid).
    + destruct (Nx.node G rid) as [[name|]|]; cbv beta iota; try done.
      intros [= <-]. exists rid, name, (if Py.truthy rid
        then map_term_to_systems G system_roots rid else []).
      split; [|done]. by destruct name.
    + cbv beta iota. intros [= <-]. by eexists rid, "", _.
  - cbn [andb]. cbv beta iota. intros [= <-]. by exists "", "", [].
Qed.

(** C2, amended. Every record of a run has the fields [input],
    [resolved_hpo_id], [resolved_hpo_name], [system_level_ids] and
    [system_level_names], in that order. Their values are the raw input;
    the resolved identifier; the name of that node of the graph; and the
    identifiers and the names of its classification against the system
    roots of the run, each list joined by [|], so that splitting a cell at
    [|] gives the list back when no member holds a [|]. The empty string
    stands wherever no value applies: in every field but [input] for an
    input that does not resolve, in the name for an identifier that is not
    in the graph, in the last two fields for an empty classification. The
    written table is the header of the field names over the values of the
    records. *)
Theorem output_record_fields G restrict_ids inputs results :
  main_results G restrict_ids inputs = Ok results →
  ∃ system_roots,
    get_system_roots G (parse_restrict restrict_ids) = Ok system_roots
    ∧ Forall2
        (λ raw r,
           ∃ rid_cell name_cell systems,
             r.*1 = fieldnames
             ∧ r = [ ("input", raw);
                     ("resolved_hpo_id", rid_cell);
                     ("resolved_hpo_name", name_cell);
                     ("system_level_ids", Py.join "|" systems.*1);
                     ("system_level_names", Py.join "|" systems.*2) ]
             ∧ match resolve_input_to_id raw (build_name_index G) with
               | Some rid =>
                   rid_cell = rid
                   ∧ systems = (if Py.truthy rid
                                then map_term_to_systems G system_roots rid
                                else [])
                   ∧ (if Py.truthy rid && Nx.has_node G rid
                      then Nx.node G rid = Ok (Some name_cell)
                      else name_cell = "")
               | None => rid_cell = "" ∧ name_cell = "" ∧ systems = []
               end
             ∧ (systems = [] →
                r = [ ("input", raw);
                      ("resolved_hpo_id", rid_cell);
                      ("resolved_hpo_name", name_cell);
                      ("system_level_ids", ""); ("system_level_names", "") ])
             ∧ (systems ≠ [] →
                Forall (λ w, all_chars (λ c, negb (Ascii.eqb c "|")) w = true)
                       systems.*1 →
                Py.split "|" (Py.join "|" systems.*1) = systems.*1)
             ∧ (systems ≠ [] →
                Forall (λ w, all_chars (λ c, negb (Ascii.eqb c "|")) w = true)
                       systems.*2 →
                Py.split "|" (Py.join "|" systems.*2) = systems.*2))
        inputs results
    ∧ write_output results = Ok (fieldnames :: ((λ r, r.*2) <$> results)).
Proof.
  intros Hres. pose proof Hres as (roots & Hroots & Hrows)%main_results_Ok.
  exists roots. split_and!; [done| |].
  - eapply Forall2_impl; [done|].
    intros raw r (rid_cell & name_cell & systems & -> & Hcells)%main_row_cells.
    exists rid_cell, name_cell, systems. split_and!; [done..| | |].
    + by intros ->.
    + intros Hne Hall. apply split_join; [by destruct systems|done].
    + intros Hne Hall. apply split_join; [by destruct systems|done].
  - apply write_output_records. clear Hres.
    induction Hrows as [|raw r ?? Hr _ IH]; constructor; [|done].
    apply main_row_Ok in Hr as (name & systems & -> & _). eauto.
Qed.

(** The statement above at a run on [seizure_graph] with one input that
    resolves and one that does not. *)
Lemma output_record_fields_witness :
  main_results seizure_graph None ["nervous system"; "zzz"] =
    Ok [ [ ("input", "nervous system");
           ("resolved_hpo_id", "HP:0000707");
           ("resolved_hpo_name", "Nervous system");
           ("system_level_ids", "HP:0000707");
           ("system_level_names", "Nervous system") ];
         [ ("input", "zzz"); ("resolved_hpo_id", "");
           ("resolved_hpo_name", ""); ("system_level_ids", "");
           ("system_level_names", "") ] ]
  ∧ write_output
      [ [ ("input", "nervous system");
          ("resolved_hpo_id", "HP:0000707");
          ("resolved_hpo_name", "Nervous system");
          ("system_level_ids", "HP:0000707");
          ("system_level_names", "Nervous system") ];
        [ ("input", "zzz"); ("resolved_hpo_id", "");
          ("resolved_hpo_name", ""); ("system_level_ids", "");
          ("system_level_names", "") ] ] =
    Ok [ fieldnames;
         ["nervous system"; "HP:0000707"; "Nervous system"; "HP:0000707";
          "Nervous system"];
         ["zzz"; ""; ""; ""; ""] ].
Proof.
  assert (main_results seizure_graph None ["nervous system"; "zzz"] =
    Ok [ [ ("input", "nervous system");
           ("resolved_hpo_id", "HP:0000707");
           ("resolved_hpo_name", "Nervous system");
           ("system_level_ids", "HP:0000707");
           ("system_level_names", "Nervous system") ];
         [ ("input", "zzz"); ("resolved_hpo_id", "");
           ("resolved_hpo_name", ""); ("system_level_ids", "");
           ("system_level_names", "") ] ]) as Hrun
    by (vm_compute; reflexivity).
  split; [exact Hrun|].
  destruct (output_record_fields seizure_graph None _ _ Hrun)
    as (roots & _ & _ & Hwrite).
  exact Hwrite.
Defined.

(** ** Nodes without a name, and what aborts a run *)

(** C6. HP:0001250 is a node of the graph and has no ["name"] attribute;
    the input resolves to it, and the body of the loop raises [KeyError]
    where an empty name is called for. *)
Theorem unnamed_node_raises :
  resolve_input_to_id "HP:0001250" (build_name_index unnamed_graph) =
    Some "HP:0001250"
  ∧ Nx.has_node unnamed_graph "HP:0001250" = true
  ∧ Nx.node unnamed_graph "HP:0001250" = Ok None
  ∧ main_row unnamed_graph (build_name_index unnamed_graph)
      [("HP:0000707", "Nervous system")] "HP:0001250" = Raise (KeyError "name").
Proof. split_and!; by vm_compute. Qed.

(** C7. The graph is well formed and has the root HP:0000118, the first
    input gives its row, and the run is aborted all the same, by the
    [KeyError] of the second input. *)
Theorem run_aborts_with_root_present :
  Nx.wf unnamed_graph
  ∧ Nx.has_node unnamed_graph PHENOTYPIC_ABN = true
  ∧ main unnamed_graph None ["Nervous system"] =
      Ok [ fieldnames;
           ["Nervous system"; "HP:0000707"; "Nervous system"; "HP:0000707";
            "Nervous system"] ]
  ∧ main unnamed_graph None ["Nervous system"; "HP:0001250"] =
      Raise (KeyError "name").
Proof.
  split_and!; [|by vm_compute..].
  apply (bool_decide_unpack (Nx.wf unnamed_graph)). by vm_compute.
Qed.


(** * Further properties of the program *)

(** ** Trimming and lower case *)

Section trimming.

Ltac by_char c :=
  destruct c as [[] [] [] [] [] [] [] []]; vm_compute; intros;
  try discriminate; auto.

Lemma lower_char_idem c : Py.lower_char (Py.lower_char c) = Py.lower_char c.
Proof. by_char c. Qed.

Lemma lower_idem s : Py.lower (Py.lower s) = Py.lower s.
Proof.
  induction s as [|c s IH]; simpl; [done|]. by rewrite lower_char_idem, IH.
Qed.

Lemma lstrip_no_lead s : no_lead (Py.lstrip s).
Proof.
  induction s as [|c s IH]; simpl; [done|].
  by destruct (Py.is_space c) eqn:Hc.
Qed.

Lemma lstrip_id s : no_lead s → Py.lstrip s = s.
Proof. destruct s as [|c s]; simpl; [done|]. by intros ->. Qed.

Lemma rstrip_no_lead s : no_lead s → no_lead (Py.rstrip s).
Proof.
  destruct s as [|c s]; simpl; [done|]. intros Hc.
  destruct (Py.rstrip s); [by rewrite Hc|done].
Qed.

Lemma rstrip_idem s : Py.rstrip (Py.rstrip s) = Py.rstrip s.
Proof.
  induction s as [|c s IH]; simpl; [done|].
  destruct (Py.rstrip s) as [|b r] eqn:E.
  - destruct (Py.is_space c) eqn:Hc; simpl; [done|]. by rewrite Hc.
  - change (Py.rstrip (String c (String b r))) with
      (match Py.rstrip (String b r) with
       | EmptyString => if Py.is_space c then EmptyString else String c EmptyString
       | r' => String c r'
       end).
    by rewrite IH.
Qed.

Lemma strip_no_lead s : no_lead (Py.strip s).
Proof. apply rstrip_no_lead, lstrip_no_lead. Qed.

Lemma strip_idem s : Py.strip (Py.strip s) = Py.strip s.
Proof.
  unfold Py.strip at 1. rewrite (lstrip_id _ (strip_no_lead s)).
  unfold Py.strip. apply rstrip_idem.
Qed.

End trimming.

(** ** Reading the inputs *)

Lemma read_inputs_plain_cons line lines :
  read_inputs_plain (line :: lines) =
  if Py.truthy (Py.strip line) then Py.strip line :: read_inputs_plain lines
  else read_inputs_plain lines.
Proof.
  unfold read_inputs_plain. rewrite filter_cons.
  destruct (Py.truthy (Py.strip line)) eqn:E.
  - by rewrite decide_True.
  - by rewrite decide_False by congruence.
Qed.

Lemma read_inputs_plain_elem lines raw :
  raw ∈ read_inputs_plain lines → raw ≠ "" ∧ Py.strip raw = raw.
Proof.
  unfold read_inputs_plain.
  intros (line & -> & [Hline _]%list_elem_of_filter)%list_elem_of_fmap.
  split; [by apply truthy_ne|apply strip_idem].
Qed.

(** X1. The inputs read from a plain-text file are the trimmed lines, in
    the order of the file, without the lines that are blank: none of them
    is empty and none has white space left on either side. *)
Theorem read_inputs_plain_trimmed lines :
  Forall (λ raw, raw ≠ "" ∧ Py.strip raw = raw) (read_inputs_plain lines)
  ∧ read_inputs_plain lines `sublist_of` (Py.strip <$> lines)
  ∧ length (read_inputs_plain lines) =
    length (filter (λ line, Py.strip line ≠ "") lines).
Proof.
  induction lines as [|line lines (IH1 & IH2 & IH3)]; [by repeat constructor|].
  rewrite read_inputs_plain_cons, fmap_cons, filter_cons.
  destruct (Py.truthy (Py.strip line)) eqn:E.
  - apply truthy_ne in E. rewrite decide_True by done. split_and!.
    + constructor; [|done]. split; [done|apply strip_idem].
    + by apply sublist_skip.
    + simpl. by rewrite IH3.
  - assert (Py.strip line = "") as E' by by destruct (Py.strip line).
    rewrite decide_False by (by intros ?). split_and!; [done| |done].
    by apply sublist_cons.
Qed.

(** X2. Reading is idempotent: the items that were read, taken as the
    lines of a file, are read back as they are. *)
Theorem read_inputs_plain_idem lines :
  read_inputs_plain (read_inputs_plain lines) = read_inputs_plain lines.
Proof.
  induction lines as [|line lines IH]; [done|].
  rewrite read_inputs_plain_cons.
  destruct (Py.truthy (Py.strip line)) eqn:E; [|done].
  rewrite read_inputs_plain_cons, strip_idem, E. by rewrite IH.
Qed.

(** ** Resolution: white space, case and the canonical form *)

Section resolution.

Ltac by_char c :=
  destruct c as [[] [] [] [] [] [] [] []]; vm_compute; intros;
  try discriminate; auto.

Lemma is_digit_lower_char c : Py.is_digit (Py.lower_char c) = Py.is_digit c.
Proof. by_char c. Qed.

Lemma lower_char_digit c : Py.is_digit c = true → Py.lower_char c = c.
Proof. by_char c. Qed.

Lemma digit_not_space c : Py.is_digit c = true → Py.is_space c = false.
Proof. by_char c. Qed.

Lemma eqb_lower_char_colon c :
  Ascii.eqb (Py.lower_char c) ":" = Ascii.eqb c ":".
Proof. by_char c. Qed.

Lemma eqb_lower_char_newline c :
  Ascii.eqb (Py.lower_char c) "010" = Ascii.eqb c "010".
Proof. by_char c. Qed.

Lemma lower_digits d : all_chars Py.is_digit d = true → Py.lower d = d.
Proof.
  induction d as [|c d IH]; simpl; [done|].
  intros [Hc Hd]%andb_prop. by rewrite (lower_char_digit c Hc), IH.
Qed.

Lemma lower_empty s : Py.lower s = "" ↔ s = "".
Proof. by destruct s. Qed.

Lemma at_end_lower s : Re.at_end (Py.lower s) = Re.at_end s.
Proof.
  destruct s as [|c [|c' s]]; simpl; [done| |done].
  apply eqb_lower_char_newline.
Qed.

Lemma digits_lower n s :
  Re.digits n (Py.lower s) = Py.lower <$> Re.digits n s.
Proof.
  revert s. induction n as [|n IH]; intros s; simpl; [done|].
  destruct s as [|c s]; simpl; [done|].
  rewrite is_digit_lower_char. by destruct (Py.is_digit c).
Qed.

(** The pattern does not look at the case. *)
Lemma match_hp_id_lower t : Re.match_hp_id (Py.lower t) = Re.match_hp_id t.
Proof.
  destruct t as [|h [|p [|colon rest]]]; try done.
  cbn [Py.lower Re.match_hp_id]. unfold Re.lit_ci.
  rewrite !lower_char_idem, eqb_lower_char_colon, digits_lower.
  destruct (Re.digits 7 rest) as [tl|]; simpl; [|done].
  by rewrite at_end_lower.
Qed.

Lemma rstrip_no_space s :
  all_chars (λ c, negb (Py.is_space c)) s = true → Py.rstrip s = s.
Proof.
  induction s as [|c s IH]; simpl; [done|].
  intros [Hc Hs]%andb_prop. rewrite (IH Hs).
  apply negb_true_iff in Hc. rewrite Hc. by destruct s.
Qed.

Lemma digits_no_space d :
  all_chars Py.is_digit d = true →
  all_chars (λ c, negb (Py.is_space c)) d = true.
Proof.
  induction d as [|c d IH]; simpl; [done|].
  intros [Hc Hd]%andb_prop. by rewrite (digit_not_space c Hc), IH.
Qed.

Lemma digits_all d :
  all_chars Py.is_digit d = true → Re.digits (String.length d) d = Some "".
Proof.
  induction d as [|c d IH]; simpl; [done|].
  intros [-> Hd]%andb_prop. by apply IH.
Qed.

(** The canonical form is trimmed and matches the pattern. *)
Lemma canonical_matches d :
  String.length d = 7 → all_chars Py.is_digit d = true →
  Py.strip ("HP:" +:+ d) = "HP:" +:+ d
  ∧ Re.match_hp_id ("HP:" +:+ d) = true.
Proof.
  intros Hlen Hd.
  change ("HP:" +:+ d) with (String "H" (String "P" (String ":" d))). split.
  - unfold Py.strip. rewrite lstrip_id by done.
    apply rstrip_no_space. simpl. by apply digits_no_space.
  - unfold Re.match_hp_id. by rewrite <-Hlen, (digits_all d Hd).
Qed.

End resolution.

(** X3. Resolution looks at the input only up to the white space around
    it and up to case: two inputs with the same trimmed, lower-cased text
    resolve alike, in the pattern branch and in the name branch. *)
Theorem resolve_up_to_case_and_space s s' (name_to_id : gmap string string) :
  Py.lower (Py.strip s) = Py.lower (Py.strip s') →
  resolve_input_to_id s name_to_id = resolve_input_to_id s' name_to_id.
Proof.
  intros Heq.
  assert (Re.match_hp_id (Py.strip s) = Re.match_hp_id (Py.strip s')) as Hm.
  { by rewrite <-(match_hp_id_lower (Py.strip s)), Heq, match_hp_id_lower. }
  destruct (Re.match_hp_id (Py.strip s')) eqn:Hm'.
  - destruct (resolve_by_pattern_digits s name_to_id Hm)
      as (h & p & d & Hs & _ & Hd & ->).
    destruct (resolve_by_pattern_digits s' name_to_id Hm')
      as (h' & p' & d' & Hs' & _ & Hd' & ->).
    rewrite Hs, Hs' in Heq. cbn [Py.lower] in Heq.
    injection Heq as _ _ Heq.
    by rewrite (lower_digits d Hd), (lower_digits d' Hd') in Heq; subst.
  - destruct (decide (Py.strip s = "")) as [He|Hne].
    + assert (Py.strip s' = "") as He'
        by (apply lower_empty; by rewrite <-Heq, He).
      by rewrite (resolve_empty s), (resolve_empty s').
    + assert (Py.strip s' ≠ "") as Hne'.
      { intros He'. apply Hne, lower_empty. by rewrite Heq, He'. }
      by rewrite (resolve_by_name s), (resolve_by_name s'), Heq.
Qed.

Lemma resolve_up_to_case_and_space_witness :
  resolve_input_to_id "  NERVOUS System " (build_name_index seizure_graph) =
  resolve_input_to_id "nervous system" (build_name_index seizure_graph).
Proof.
  apply (resolve_up_to_case_and_space "  NERVOUS System " "nervous system").
  reflexivity.
Defined.

(** X4. The identifier that the pattern branch returns resolves to itself,
    with any name index: the canonical form is a fixed point. *)
Theorem resolve_canonical_fixed term id (name_to_id name_to_id' : gmap string string) :
  Re.match_hp_id (Py.strip term) = true →
  resolve_input_to_id term name_to_id = Some id →
  resolve_input_to_id id name_to_id' = Some id.
Proof.
  intros Hm.
  destruct (resolve_by_pattern_digits term name_to_id Hm)
    as (h & p & d & _ & Hlen & Hd & ->).
  intros [= <-].
  destruct (canonical_matches d Hlen Hd) as [Hstrip Hmatch].
  rewrite <-Hstrip in Hmatch.
  destruct (resolve_by_pattern_digits ("HP:" +:+ d) name_to_id' Hmatch)
    as (h' & p' & d' & Hs & _ & _ & ->).
  rewrite Hstrip in Hs.
  change ("HP:" +:+ d) with (String "H" (String "P" (String ":" d))) in Hs.
  by injection Hs as _ _ <-.
Qed.

Lemma resolve_canonical_fixed_witness :
  resolve_input_to_id " hp:0001250 " ∅ = Some "HP:0001250"
  ∧ resolve_input_to_id "HP:0001250" (build_name_index seizure_graph) =
    Some "HP:0001250".
Proof.
  split; [reflexivity|].
  apply (resolve_canonical_fixed " hp:0001250 " "HP:0001250" ∅); reflexivity.
Defined.

(** X5. For an item that comes out of the plain-text reader, the trimming
    and the test for emptiness of the resolver change nothing: the item
    itself is matched against the pattern or looked up, lower-cased, in
    the index. *)
Theorem resolve_read_input lines raw (name_to_id : gmap string string) :
  raw ∈ read_inputs_plain lines →
  resolve_input_to_id raw name_to_id =
  if Re.match_hp_id raw then Some ("HP:" +:+ substring 3 7 raw)
  else name_to_id !! Py.lower raw.
Proof.
  intros [Hne Hs]%read_inputs_plain_elem.
  destruct (Re.match_hp_id raw) eqn:Hm.
  - rewrite <-Hs in Hm.
    destruct (resolve_by_pattern_digits raw name_to_id Hm)
      as (h & p & d & Ht & Hlen & _ & ->).
    rewrite Hs in Ht. rewrite Ht. cbn [substring].
    by rewrite <-Hlen, substring_all.
  - rewrite resolve_by_name; by rewrite Hs.
Qed.

Lemma resolve_read_input_witness :
  "Seizure" ∈ read_inputs_plain ["  Seizure  "; "   "; "hp:0001250"]
  ∧ resolve_input_to_id "Seizure" (build_name_index seizure_graph) =
    Some "HP:0001250".
Proof.
  assert ("Seizure" ∈ read_inputs_plain ["  Seizure  "; "   "; "hp:0001250"])
    as Hin by apply list_elem_of_here.
  split; [exact Hin|].
  rewrite (resolve_read_input _ _ (build_name_index seizure_graph) Hin).
  reflexivity.
Defined.

(** ** The name index, read back *)

Lemma lower_truthy name : Py.truthy (Py.lower name) = Py.truthy name.
Proof. by destruct name. Qed.

(** A node with a name leaves an entry under the lower-cased name. *)
Lemma name_index_complete l (m : gmap string string) id name :
  (id, Some name) ∈ l → Py.truthy name = true →
  is_Some (foldl name_index_step m l !! Py.lower name).
Proof.
  induction l as [|[id' attrs] l IH] using rev_ind; [by intros ?%elem_of_nil|].
  intros Hin Hname. rewrite foldl_app. simpl.
  unfold name_index_step at 1. simpl.
  destruct attrs as [name'|].
  - destruct (Py.truthy name') eqn:Hn'.
    + destruct (decide (Py.lower name' = Py.lower name)) as [->|Hne].
      * rewrite lookup_insert_eq. eauto.
      * rewrite lookup_insert_ne by done. apply IH; [|done].
        apply elem_of_app in Hin as [?|[= -> ->]%list_elem_of_singleton]; done.
    + apply IH; [|done].
      apply elem_of_app in Hin as [?|[= -> ->]%list_elem_of_singleton];
        [done|congruence].
  - apply IH; [|done].
    by apply elem_of_app in Hin as [?|[=]%list_elem_of_singleton].
Qed.

(** X6. Every key of the name index is a lower-cased, non-empty name and
    every value is a node of the graph that carries that name up to
    case. *)
Theorem name_index_entries G k id :
  build_name_index G !! k = Some id →
  k ≠ "" ∧ Py.lower k = k ∧ Nx.has_node G id = true
  ∧ ∃ name, (id, Some name) ∈ nodes G ∧ Py.lower name = k.
Proof.
  intros (name & Hin & Hname & <-)%build_name_index_sound. split_and!.
  - apply truthy_ne. by rewrite lower_truthy.
  - apply lower_idem.
  - apply has_node_true, list_elem_of_fmap. by exists (id, Some name).
  - eauto.
Qed.

Lemma name_index_entries_witness :
  build_name_index seizure_graph !! "seizure" = Some "HP:0001250"
  ∧ Nx.has_node seizure_graph "HP:0001250" = true.
Proof.
  split; [reflexivity|].
  exact (proj1 (proj2 (proj2
    (name_index_entries seizure_graph "seizure" "HP:0001250" eq_refl)))).
Defined.

(** X7. Building the index and resolving a name go together: a node whose
    name is not empty, has no white space around it and does not look like
    an identifier is found by its name, up to the nodes that share the
    name once lower-cased; if there is no other such node, the name
    resolves to the node itself. *)
Theorem named_node_resolves G id name :
  (id, Some name) ∈ nodes G →
  name ≠ "" → Py.strip name = name → Re.match_hp_id name = false →
  ∃ id' name',
    resolve_input_to_id name (build_name_index G) = Some id'
    ∧ (id', Some name') ∈ nodes G
    ∧ Py.lower name' = Py.lower name
    ∧ ((∀ id2 name2, (id2, Some name2) ∈ nodes G →
                     Py.lower name2 = Py.lower name → id2 = id) →
       id' = id).
Proof.
  intros Hin Hne Hstrip Hm.
  rewrite resolve_by_name by (by rewrite Hstrip). rewrite Hstrip.
  destruct (name_index_complete (nodes G) ∅ id name Hin) as [id' Hid'];
    [by apply truthy_ne|].
  pose proof Hid' as (name' & Hin' & _ & Hlow)%build_name_index_sound.
  exists id', name'. split_and!; [done..|].
  intros Huniq. by eapply Huniq.
Qed.

Lemma named_node_resolves_witness :
  resolve_input_to_id "Nervous system" (build_name_index seizure_graph) =
  Some "HP:0000707".
Proof.
  destruct (named_node_resolves seizure_graph "HP:0000707" "Nervous system")
    as (id' & name' & Hres & _); [|done|reflexivity|reflexivity|].
  - apply list_elem_of_further, list_elem_of_here.
  - vm_compute in Hres. injection Hres as <-. reflexivity.
Defined.

(** ** System roots: errors, names and the allow-list *)

(** The name that goes with a child, read off the graph. *)
Lemma recorded_eq G x :
  recorded G x →
  x = (x.1, match Nx.node G x.1 with Ok attrs => default "" attrs | Raise _ => "" end).
Proof.
  destruct x as [cid nm]. intros (attrs & Hn & Hnm). simpl in *.
  by rewrite Hn, Hnm.
Qed.

Lemma recorded_fmap G (l : list (string * string)) :
  Forall (recorded G) l →
  l = (λ cid, (cid, match Nx.node G cid with
                    | Ok attrs => default "" attrs
                    | Raise _ => ""
                    end)) <$> l.*1.
Proof.
  induction 1 as [|x l Hx _ IH]; [done|].
  rewrite !fmap_cons, <-IH. f_equal. by apply recorded_eq.
Qed.

(** X8. On a well-formed graph [get_system_roots] raises only when the
    root HP:0000118 is not a node, and then it is the [ValueError] of its
    first lines, whatever the allow-list. *)
Theorem get_system_roots_raises G restrict_to e :
  Nx.wf G →
  get_system_roots G restrict_to = Raise e ↔
  Nx.has_node G PHENOTYPIC_ABN = false
  ∧ e = ValueError "HP:0000118 not found in the ontology graph.".
Proof.
  intros Hwf. split.
  - intros Hraise. destruct (Nx.has_node G PHENOTYPIC_ABN) eqn:Hroot.
    + destruct (get_system_roots_total G restrict_to Hwf Hroot) as [s Hs].
      congruence.
    + rewrite get_system_roots_absent in Hraise by done. by injection Hraise as <-.
  - intros [Hroot ->]. by apply get_system_roots_absent.
Qed.

Lemma get_system_roots_raises_witness :
  Nx.wf empty_names_graph
  ∧ get_system_roots empty_names_graph None =
    Raise (ValueError "HP:0000118 not found in the ontology graph.").
Proof.
  assert (Nx.wf empty_names_graph) as Hwf
    by (apply (bool_decide_unpack (Nx.wf empty_names_graph)); by vm_compute).
  split; [exact Hwf|].
  apply (get_system_roots_raises empty_names_graph None _ Hwf).
  split; reflexivity.
Defined.

(** X9. Every entry of the system-root mapping is a node of the graph
    with an edge to the root, under its ["name"] attribute, or under the
    empty string if it has none; no identifier comes twice. *)
Theorem system_roots_entries G restrict_to systems :
  get_system_roots G restrict_to = Ok systems →
  NoDup systems.*1
  ∧ Forall (λ x, Nx.edge G x.1 PHENOTYPIC_ABN
                 ∧ ∃ attrs, (x.1, attrs) ∈ nodes G ∧ x.2 = default "" attrs)
           systems.
Proof.
  intros (_ & Hnodup & Hkeys & Hrec)%get_system_roots_Ok. split; [done|].
  rewrite Forall_forall in Hrec |- *. intros x Hx. split.
  - apply Hkeys, list_elem_of_fmap. eauto.
  - destruct (Hrec x Hx) as (attrs & Hn & ->). exists attrs.
    split; [by apply nx_node_elem|done].
Qed.

Lemma system_roots_entries_witness :
  get_system_roots unnamed_graph None = Ok [("HP:0000707", "Nervous system")]
  ∧ NoDup [("HP:0000707", "Nervous system")].*1.
Proof.
  assert (get_system_roots unnamed_graph None =
          Ok [("HP:0000707", "Nervous system")]) as Hs by reflexivity.
  split; [exact Hs|].
  exact (proj1 (system_roots_entries unnamed_graph None _ Hs)).
Defined.

Lemma filter_all {X} (P : X → Prop) `{!∀ x, Decision (P x)} (l : list X) :
  (∀ x, P x) → filter P l = l.
Proof.
  intros HP. induction l as [|x l IH]; [done|].
  by rewrite filter_cons_True, IH.
Qed.

(** X10. The allow-list narrows and never widens: the mapping under an
    allow-list is the mapping without one with some entries taken out,
    the others in their order and with their names. *)
Theorem allow_list_narrows G restrict_to systems systems0 :
  get_system_roots G restrict_to = Ok systems →
  get_system_roots G None = Ok systems0 →
  systems `sublist_of` systems0.
Proof.
  unfold get_system_roots.
  destruct (Nx.has_node G PHENOTYPIC_ABN); simpl; [|done].
  intros (tail & -> & Hkeys & Hrec)%system_roots_loop;
    [|apply NoDup_elements|by intros ? ?%elem_of_nil].
  intros (tail0 & -> & Hkeys0 & Hrec0)%system_roots_loop;
    [|apply NoDup_elements|by intros ? ?%elem_of_nil].
  simpl. rewrite (recorded_fmap G tail Hrec), (recorded_fmap G tail0 Hrec0).
  apply fmap_sublist. rewrite Hkeys, Hkeys0.
  rewrite (filter_all (kept None)) by done. apply sublist_filter; apply _.
Qed.

Lemma allow_list_narrows_witness :
  get_system_roots nested_graph (Some {["HP:0012638"]}) =
    Ok [("HP:0012638", "Nervous system physiology")]
  ∧ ∃ systems0,
      get_system_roots nested_graph None = Ok systems0
      ∧ [("HP:0012638", "Nervous system physiology")] `sublist_of` systems0.
Proof.
  assert (get_system_roots nested_graph (Some {["HP:0012638"]}) =
          Ok [("HP:0012638", "Nervous system physiology")]) as Hs
    by (vm_compute; reflexivity).
  split; [exact Hs|]. eexists. split; [vm_compute; reflexivity|].
  apply (allow_list_narrows nested_graph (Some {["HP:0012638"]}) _ _ Hs).
  vm_compute; reflexivity.
Defined.

(** ** Classification: what is in the result, and its order *)

Section sorted_unique.
Context {A : Type} (key : A → string).

(** Two sorted lists with the same elements and pairwise different keys
    are the same list. *)
Lemma sorted_perm_eq (l1 l2 : list A) :
  StronglySorted (key_le key) l1 → StronglySorted (key_le key) l2 →
  NoDup (key <$> l1) → l1 ≡ₚ l2 → l1 = l2.
Proof.
  intros Hs1. revert l2.
  induction Hs1 as [|x l1 Hs1 IH Hx]; intros l2 Hs2 Hnd Hp.
  { by apply Permutation_nil_l in Hp. }
  destruct Hs2 as [|y l2 Hs2 Hy].
  { by apply Permutation_nil_r in Hp. }
  rewrite fmap_cons in Hnd. apply NoDup_cons in Hnd as [Hkx Hnd].
  assert (x = y) as <-.
  { assert (x ∈ y :: l2) as [->|Hx2]%elem_of_cons
      by (rewrite <-Hp; apply list_elem_of_here); [done|].
    assert (y ∈ x :: l1) as [->|Hy1]%elem_of_cons
      by (rewrite Hp; apply list_elem_of_here); [done|].
    rewrite Forall_forall in Hx, Hy.
    assert (key x = key y) as Hk
      by (apply (anti_symm String.le); [by apply Hx|by apply Hy]).
    exfalso. apply Hkx. rewrite Hk. apply list_elem_of_fmap. eauto. }
  f_equal. apply IH; [done..|]. by apply Permutation_cons_inv in Hp.
Qed.

End sorted_unique.

(** X11. The result of [map_term_to_systems] holds entries of the
    system-root mapping only, each at most as often as the mapping has it;
    an entry is in the result exactly when the node is in the graph and a
    path of edges leads from the entry's identifier to the node (the
    direction in which [networkx.ancestors] walks). *)
Theorem classification_members G systems node_id :
  map_term_to_systems G systems node_id ⊆+ systems
  ∧ ∀ x, x ∈ map_term_to_systems G systems node_id ↔
         Nx.has_node G node_id = true ∧ x ∈ systems
         ∧ rtc (Nx.edge G) x.1 node_id.
Proof.
  split; [|apply elem_of_map_term_to_systems].
  unfold map_term_to_systems. destruct (Nx.has_node G node_id); simpl.
  - rewrite sort_by_perm. apply sublist_submseteq, sublist_filter; apply _.
  - apply submseteq_nil_l.
Qed.

(** X12. When the names of the system roots are pairwise different once
    lower-cased, the result does not depend on the order in which the
    mapping is gone through. *)
Theorem classification_order_independent G systems systems' node_id :
  NoDup ((λ x, Py.lower x.2) <$> systems) →
  systems ≡ₚ systems' →
  map_term_to_systems G systems node_id = map_term_to_systems G systems' node_id.
Proof.
  intros Hnd Hp. unfold map_term_to_systems.
  destruct (Nx.has_node G node_id); simpl; [|done].
  apply (sorted_perm_eq (λ x, Py.lower x.2)).
  - apply sort_by_sorted.
  - apply sort_by_sorted.
  - rewrite sort_by_perm.
    eapply sublist_NoDup; [done|]. apply fmap_sublist, sublist_filter; apply _.
  - rewrite !sort_by_perm. by rewrite Hp.
Qed.

Lemma classification_order_independent_witness :
  map_term_to_systems nested_graph
    [ ("HP:0012638", "Nervous system physiology");
      ("HP:0000707", "Nervous system") ] "HP:0000707" =
  map_term_to_systems nested_graph
    [ ("HP:0000707", "Nervous system");
      ("HP:0012638", "Nervous system physiology") ] "HP:0000707".
Proof.
  apply classification_order_independent.
  - apply (bool_decide_unpack (NoDup _)). by vm_compute.
  - apply Permutation_swap.
Defined.

(** ** Rows and runs *)

Section rows.
Context (G : MultiDiGraph).

Lemma nx_node_has_node n attrs : Nx.node G n = Ok attrs → Nx.has_node G n = true.
Proof.
  intros Hn%nx_node_elem. apply has_node_true, list_elem_of_fmap.
  by exists (n, attrs).
Qed.

(** The row of an input that resolves to a node without a name. *)
Lemma main_row_unnamed name_to_id system_roots raw rid :
  resolve_input_to_id raw name_to_id = Some rid →
  rid ≠ "" → Nx.node G rid = Ok None →
  main_row G name_to_id system_roots raw = Raise (KeyError "name").
Proof.
  intros Hr Hrid%truthy_ne Hn. unfold main_row. cbv zeta.
  rewrite Hr. cbn [default from_option]. unfold id.
  by rewrite Hrid, (nx_node_has_node _ _ Hn), Hn.
Qed.

Lemma main_row_raise_inv name_to_id system_roots raw e :
  main_row G name_to_id system_roots raw = Raise e →
  e = KeyError "name"
  ∧ ∃ rid, resolve_input_to_id raw name_to_id = Some rid
           ∧ rid ≠ "" ∧ Nx.node G rid = Ok None.
Proof.
  unfold main_row. cbv zeta.
  destruct (resolve_input_to_id raw name_to_id) as [rid|];
    cbn [default from_option]; unfold id; [|done].
  destruct (Py.truthy rid) eqn:Hrid; [|done]. apply truthy_ne in Hrid.
  destruct (Nx.has_node G rid) eqn:Hnode; [|done]. cbn [andb].
  apply has_node_true in Hnode.
  destruct (nx_node_Ok G rid Hnode) as [[name|] Hn]; rewrite Hn; simpl; [done|].
  intros [= <-]. eauto.
Qed.

End rows.

Lemma for_each_app_eq {A B} (body : A → result B) l1 l2 :
  for_each body (l1 ++ l2) =
  match for_each body l1 with
  | Ok b1 => match for_each body l2 with
             | Ok b2 => Ok (b1 ++ b2)
             | Raise e => Raise e
             end
  | Raise e => Raise e
  end.
Proof.
  induction l1 as [|a l1 IH]; simpl.
  - by destruct (for_each body l2).
  - destruct (body a) as [b|e]; simpl; [|done]. rewrite IH.
    destruct (for_each body l1) as [b1|e]; simpl; [|done].
    by destruct (for_each body l2).
Qed.

Lemma for_each_app {A B} (body : A → result B) l1 l2 bs :
  for_each body (l1 ++ l2) = Ok bs ↔
  ∃ b1 b2, bs = b1 ++ b2 ∧ for_each body l1 = Ok b1 ∧ for_each body l2 = Ok b2.
Proof.
  rewrite for_each_app_eq.
  destruct (for_each body l1) as [b1|e1], (for_each body l2) as [b2|e2];
    (split; [intros [= <-]; eauto|by intros (? & ? & -> & [= <-] & [= <-])]).
Qed.

(** The rows of a run that succeeds are records. *)
Lemma main_results_records G restrict_ids inputs results :
  main_results G restrict_ids inputs = Ok results →
  Forall (λ r, ∃ raw rid name systems, r = record raw rid name systems) results.
Proof.
  intros (roots & _ & Hrows)%main_results_Ok.
  induction Hrows as [|raw r ?? Hr _ IH]; constructor; [|done].
  apply main_row_Ok in Hr as (name & systems & -> & _). eauto.
Qed.

(** X13. An input that resolves to an identifier that is not a node of
    the graph (an identifier typed in, say) gets a row with the identifier
    and with an empty name and an empty classification; nothing is raised. *)
Theorem row_of_absent_identifier G name_to_id system_roots raw rid :
  resolve_input_to_id raw name_to_id = Some rid →
  Nx.has_node G rid = false →
  main_row G name_to_id system_roots raw =
  Ok [ ("input", raw); ("resolved_hpo_id", rid); ("resolved_hpo_name", "");
       ("system_level_ids", ""); ("system_level_names", "") ].
Proof.
  intros Hr Hn. unfold main_row. cbv zeta.
  rewrite !join_or_empty, Hr. cbn [default from_option]. unfold id.
  unfold map_term_to_systems. rewrite Hn, andb_false_r. simpl.
  by destruct rid.
Qed.

Lemma row_of_absent_identifier_witness :
  main_row seizure_graph (build_name_index seizure_graph)
    [("HP:0000707", "Nervous system")] "hp:9999999" =
  Ok [ ("input", "hp:9999999"); ("resolved_hpo_id", "HP:9999999");
       ("resolved_hpo_name", ""); ("system_level_ids", "");
       ("system_level_names", "") ].
Proof.
  apply (row_of_absent_identifier seizure_graph); reflexivity.
Defined.

(** X14. The body of the loop raises exactly for an input that resolves
    to a node of the graph without a ["name"] attribute, and what it
    raises is [KeyError("name")]. *)
Theorem main_row_raises_iff G name_to_id system_roots raw e :
  main_row G name_to_id system_roots raw = Raise e ↔
  e = KeyError "name"
  ∧ ∃ rid, resolve_input_to_id raw name_to_id = Some rid
           ∧ rid ≠ "" ∧ Nx.node G rid = Ok None.
Proof.
  split; [apply main_row_raise_inv|].
  intros (-> & rid & Hr & Hrid & Hn). by eapply main_row_unnamed.
Qed.

(** X15. The rows do not depend on one another: a run over two lists of
    inputs, one after the other, succeeds exactly when the runs over each
    of them succeed, and its rows are theirs, in that order. *)
Theorem main_results_app G restrict_ids inputs1 inputs2 results :
  main_results G restrict_ids (inputs1 ++ inputs2) = Ok results ↔
  ∃ results1 results2,
    results = results1 ++ results2
    ∧ main_results G restrict_ids inputs1 = Ok results1
    ∧ main_results G restrict_ids inputs2 = Ok results2.
Proof.
  unfold main_results.
  destruct (get_system_roots G (parse_restrict restrict_ids)) as [roots|e];
    simpl; [apply for_each_app|].
  split; [done|]. by intros (? & ? & _ & ? & _).
Qed.

(** X16. On a well-formed graph with the root, a run succeeds exactly when
    no input resolves to a node without a name; it then writes the header
    and one line of five cells per input. Any other run with the root ends
    in [KeyError("name")]. *)
Theorem main_succeeds_iff G restrict_ids inputs :
  Nx.wf G → Nx.has_node G PHENOTYPIC_ABN = true →
  ((∀ raw rid, raw ∈ inputs →
               resolve_input_to_id raw (build_name_index G) = Some rid →
               rid ≠ "" → Nx.node G rid ≠ Ok None)
   ↔ ∃ body, main G restrict_ids inputs = Ok (fieldnames :: body)
             ∧ length body = length inputs
             ∧ Forall (λ line, length line = 5) body)
  ∧ (∀ e, main G restrict_ids inputs = Raise e → e = KeyError "name").
Proof.
  intros Hwf Hroot.
  destruct (get_system_roots_total G (parse_restrict restrict_ids) Hwf Hroot)
    as [roots Hroots].
  assert (main_results G restrict_ids inputs =
          for_each (main_row G (build_name_index G) roots) inputs) as Hres.
  { unfold main_results. by rewrite Hroots. }
  split; [split|].
  - intros Hnamed.
    destruct (for_each_total (main_row G (build_name_index G) roots) inputs)
      as [results Hresults].
    { apply Forall_forall. intros raw Hraw.
      destruct (main_row G (build_name_index G) roots raw) as [r|e] eqn:Hrow;
        [by eauto|].
      apply main_row_raise_inv in Hrow as (_ & rid & Hr & Hrid & Hn).
      by destruct (Hnamed raw rid). }
    rewrite <-Hres in Hresults. unfold main. rewrite Hresults. simpl.
    pose proof (main_results_records _ _ _ _ Hresults) as Hrec.
    rewrite (write_output_records _ Hrec). eexists. split_and!; [done|..].
    + rewrite length_fmap.
      apply main_results_Ok in Hresults as (? & _ & Hrows).
      symmetry. by eapply Forall2_length.
    + apply Forall_fmap. eapply Forall_impl; [done|].
      by intros r (? & ? & ? & ? & ->).
  - intros (body & Hmain & _) raw rid Hraw Hr Hrid Hn.
    unfold main in Hmain. rewrite Hres in Hmain.
    apply list_elem_of_split in Hraw as (i1 & i2 & ->).
    destruct (for_each (main_row G (build_name_index G) roots) (i1 ++ raw :: i2))
      as [results|] eqn:Hfe; [|done].
    apply for_each_app in Hfe as (? & ? & _ & _ & Hfe). simpl in Hfe.
    by rewrite (main_row_unnamed G _ roots raw rid Hr Hrid Hn) in Hfe.
  - intros e. unfold main.
    destruct (main_results G restrict_ids inputs) as [results|e'] eqn:Hmr; simpl.
    + by rewrite (write_output_records _ (main_results_records _ _ _ _ Hmr)).
    + intros [= <-]. symmetry in Hres.
      by apply for_each_raise in Hres as (raw & _ & [-> _]%main_row_raise_inv).
Qed.

Lemma main_succeeds_iff_witness :
  Nx.wf unnamed_graph ∧ Nx.has_node unnamed_graph PHENOTYPIC_ABN = true
  ∧ ∀ e, main unnamed_graph None ["HP:0001250"] = Raise e → e = KeyError "name".
Proof.
  assert (Nx.wf unnamed_graph) as Hwf
    by (apply (bool_decide_unpack (Nx.wf unnamed_graph)); by vm_compute).
  split_and!; [exact Hwf|reflexivity|].
  exact (proj2 (main_succeeds_iff unnamed_graph None ["HP:0001250"] Hwf eq_refl)).
Defined.

(** X17. From the lines of a plain-text file to the written table: a run
    that succeeds writes the header and one line for each line of the file
    that is not blank. *)
Theorem main_on_plain_text G restrict_ids lines table :
  main G restrict_ids (read_inputs_plain lines) = Ok table →
  ∃ body,
    table = fieldnames :: body
    ∧ length body = length (filter (λ line, Py.strip line ≠ "") lines)
    ∧ Forall2 (λ raw line, ∃ cells, line = raw :: cells ∧ length cells = 4)
              (read_inputs_plain lines) body.
Proof.
  unfold main.
  destruct (main_results G restrict_ids (read_inputs_plain lines))
    as [results|] eqn:Hres; simpl; [|done].
  rewrite (write_output_records _ (main_results_records _ _ _ _ Hres)).
  intros [= <-]. eexists. split; [done|].
  apply main_results_Ok in Hres as (roots & _ & Hrows).
  assert (Forall2 (λ raw line, ∃ cells, line = raw :: cells ∧ length cells = 4)
            (read_inputs_plain lines) ((λ r, r.*2) <$> results)) as Hbody.
  { apply Forall2_fmap_r. eapply Forall2_impl; [done|].
    intros raw r (name & systems & -> & _)%main_row_Ok. simpl. eauto. }
  split; [|done].
  rewrite <-(Forall2_length _ _ _ Hbody).
  unfold read_inputs_plain. rewrite length_fmap. f_equal.
  apply list_filter_iff. intros line. by rewrite truthy_ne.
Qed.

Lemma main_on_plain_text_witness :
  main seizure_graph None (read_inputs_plain ["  Seizure  "; "   "; "zzz"]) =
    Ok [ fieldnames; ["Seizure"; "HP:0001250"; "Seizure"; ""; ""];
         ["zzz"; ""; ""; ""; ""] ]
  ∧ ∃ body,
      [ fieldnames; ["Seizure"; "HP:0001250"; "Seizure"; ""; ""];
        ["zzz"; ""; ""; ""; ""] ] = fieldnames :: body
      ∧ length body = 2.
Proof.
  assert (main seizure_graph None
            (read_inputs_plain ["  Seizure  "; "   "; "zzz"]) =
          Ok [ fieldnames; ["Seizure"; "HP:0001250"; "Seizure"; ""; ""];
               ["zzz"; ""; ""; ""; ""] ]) as Hrun by (vm_compute; reflexivity).
  split; [exact Hrun|].
  destruct (main_on_plain_text seizure_graph None _ _ Hrun)
    as (body & Htable & Hlen & _).
  exists body. split; [exact Htable|]. rewrite Hlen. reflexivity.
Defined.

Lemma main_row_named_witness :
  main_row seizure_graph (build_name_index seizure_graph)
    [("HP:0000707", "Nervous system")] " nervous SYSTEM" =
  Ok [ ("input", " nervous SYSTEM"); ("resolved_hpo_id", "HP:0000707");
       ("resolved_hpo_name", "Nervous system");
       ("system_level_ids", "HP:0000707");
       ("system_level_names", "Nervous system") ].
Proof.
  rewrite (main_row_named seizure_graph _ _ _ "HP:0000707" "Nervous system");
    [|reflexivity|discriminate|reflexivity].
  vm_compute; reflexivity.
Defined.

Lemma main_ValueError_iff_witness :
  Nx.wf empty_names_graph
  ∧ ∃ msg, main empty_names_graph None ["HP:0000001"] = Raise (ValueError msg).
Proof.
  assert (Nx.wf empty_names_graph) as Hwf
    by (apply (bool_decide_unpack (Nx.wf empty_names_graph)); by vm_compute).
  split; [exact Hwf|].
  apply (main_ValueError_iff empty_names_graph None ["HP:0000001"] Hwf).
  reflexivity.
Defined.

(** ** The allow-list option *)

Section allow_list_option.

Lemma all_chars_lstrip P s :
  all_chars P s = true → all_chars P (Py.lstrip s) = true.
Proof.
  induction s as [|c s IH]; simpl; [done|].
  intros [Hc Hs]%andb_prop. destruct (Py.is_space c); [by apply IH|].
  simpl. by rewrite Hc, Hs.
Qed.

Lemma all_chars_rstrip P s :
  all_chars P s = true → all_chars P (Py.rstrip s) = true.
Proof.
  induction s as [|c s IH]; simpl; [done|].
  intros [Hc Hs]%andb_prop. specialize (IH Hs).
  destruct (Py.rstrip s) as [|b r].
  - destruct (Py.is_space c); simpl; [done|]. by rewrite Hc.
  - simpl in *. by rewrite Hc, IH.
Qed.

Lemma all_chars_strip P s :
  all_chars P s = true → all_chars P (Py.strip s) = true.
Proof. intros. by apply all_chars_rstrip, all_chars_lstrip. Qed.

(** No piece of a split holds the separator. *)
Lemma split_pieces sep s :
  Forall (λ w, all_chars (λ c, negb (Ascii.eqb c sep)) w = true) (Py.split sep s).
Proof.
  induction s as [|c s IH]; simpl; [by repeat constructor|].
  destruct (Ascii.eqb c sep) eqn:Hc; [by constructor|].
  destruct (Py.split sep s) as [|w ws]; [by repeat constructor; simpl; rewrite Hc|].
  apply Forall_cons in IH as [Hw Hws]. constructor; [|done].
  simpl. by rewrite Hc, Hw.
Qed.

End allow_list_option.

(** X20. The identifiers taken from [--restrict_ids] are not empty, have
    no white space around them and hold no comma; the option gives no
    allow-list at all exactly when it is missing or empty. *)
Theorem parse_restrict_elements restrict_ids :
  (parse_restrict restrict_ids = None ↔
   restrict_ids = None ∨ restrict_ids = Some "")
  ∧ ∀ ids x, parse_restrict restrict_ids = Some ids → x ∈ ids →
             x ≠ "" ∧ Py.strip x = x
             ∧ all_chars (λ c, negb (Ascii.eqb c ",")) x = true.
Proof.
  unfold parse_restrict. split.
  - destruct restrict_ids as [[|c s]|]; simpl; naive_solver.
  - intros ids x. destruct restrict_ids as [s|]; [|done].
    destruct (Py.truthy s); [|done]. intros [= <-].
    rewrite elem_of_list_to_set.
    intros [Hx (piece & -> & Hp)%list_elem_of_fmap]%list_elem_of_filter.
    split_and!; [by apply truthy_ne|apply strip_idem|].
    apply all_chars_strip.
    pose proof (split_pieces "," s) as Hall. rewrite Forall_forall in Hall.
    by apply Hall.
Qed.

(** X21. Joining identifiers with commas and handing them to
    [--restrict_ids] gives their set back, provided there is at least one
    and each is not empty, trimmed and free of commas. *)
Theorem parse_restrict_join (l : list string) :
  l ≠ [] →
  Forall (λ x, x ≠ "" ∧ Py.strip x = x
               ∧ all_chars (λ c, negb (Ascii.eqb c ",")) x = true) l →
  parse_restrict (Some (Py.join "," l)) = Some (list_to_set l).
Proof.
  intros Hl Hall. unfold parse_restrict.
  assert (Py.truthy (Py.join "," l) = true) as ->.
  { destruct Hall as [|x [|y l] (Hx & _) _]; [done|by apply truthy_ne|].
    change (Py.join "," (x :: y :: l)) with (x +:+ "," +:+ Py.join "," (y :: l)).
    by destruct x. }
  rewrite (split_join "," l Hl)
    by (eapply Forall_impl; [done|]; by intros x (_ & _ & ?)).
  do 2 f_equal. clear Hl.
  induction Hall as [|x l (Hx & Hs & _) _ IH]; [done|].
  rewrite fmap_cons, filter_cons, Hs, IH.
  by rewrite decide_True by by apply truthy_ne.
Qed.

Lemma parse_restrict_join_witness :
  parse_restrict (Some "HP:0000707,HP:0001626") =
  Some (list_to_set ["HP:0000707"; "HP:0001626"]).
Proof.
  apply (parse_restrict_join ["HP:0000707"; "HP:0001626"]); [done|].
  repeat constructor; done.
Defined.

(** ** Ancestors *)

(** X22. On a well-formed graph the set that [ancestors] returns for a
    node holds nodes of the graph only, never the node itself, and it is
    empty for anything that is not a node. *)
Theorem ancestors_are_other_nodes G node :
  Nx.wf G →
  (∀ u, u ∈ ancestors G node →
        Nx.has_node G u = true ∧ Nx.has_node G node = true ∧ u ≠ node)
  ∧ (Nx.has_node G node = false → ancestors G node = ∅).
Proof.
  intros [_ Hedges]. rewrite Forall_forall in Hedges. split.
  - intros u. unfold ancestors.
    destruct (Nx.has_node G node) eqn:Hn; simpl; [|by intros ?%elem_of_empty].
    intros [Hne Hp]%elem_of_nx_ancestors. split_and!; [|done..].
    apply rtc_inv in Hp as [->|(w & [k He] & _)]; [done|].
    apply has_node_true. by apply Hedges in He as [? _].
  - unfold ancestors. by intros ->.
Qed.

Lemma ancestors_are_other_nodes_witness :
  Nx.wf seizure_graph
  ∧ ancestors seizure_graph "HP:0009999" = ∅.
Proof.
  assert (Nx.wf seizure_graph) as Hwf
    by (apply (bool_decide_unpack (Nx.wf seizure_graph)); by vm_compute).
  split; [exact Hwf|].
  apply (ancestors_are_other_nodes seizure_graph "HP:0009999" Hwf).
  reflexivity.
Defined.
